(** * Douban Top-250 scraper (src/main.py): a shallow embedding and its properties

    The Python module is embedded function by function.  Python [str] values
    are sequences of Unicode code points, Python [int] values are [Z],
    [None] is [None], a raised exception is the [Raise] branch of [result],
    and the parts of the outside world the module touches (the CSV file, the
    poster directory, the log file, the HTTP requests it sends) are fields
    of an explicit [world] that is threaded through the stateful
    functions.

    The libraries the module calls are modelled by what they are documented
    to do: [str.strip], [str.splitlines], [int], [zip], [Counter] and
    [sorted] of the interpreter; [find], [find_all], [get_text] and [get] of
    bs4 on an explicit parse tree; [requests.get] and [raise_for_status]
    against a network that is a parameter.  The CSV file is kept as the
    list of rows written to it, the quoting of the csv dialect is not
    modelled.  Opening and writing files is taken to succeed, except for
    reading douban.csv when it was never written; [logging.basicConfig],
    [os.makedirs] and the drawing calls of matplotlib leave no trace other
    than the log entries and the two plotted series. *)

From Stdlib Require Import ZArith String Ascii.
From stdpp Require Import base decidable option list numbers countable gmap sorting.

Local Open Scope Z_scope.
Local Open Scope nat_scope.

(** ** Python strings *)

Module Str.

(** A [str] is the list of its code points. *)
Definition str : Type := list N.

(** Decoding of UTF-8 source literals, so that the constants of the program
    can be written the way main.py writes them. *)
Fixpoint utf8_decode (fuel : nat) (bs : list N) : str :=
  match fuel with
  | O => []
  | S fuel' =>
    match bs with
    | [] => []
    | b0 :: r0 =>
      if (b0 <? 128)%N then b0 :: utf8_decode fuel' r0
      else if (b0 <? 224)%N then
        match r0 with
        | b1 :: r1 => ((b0 - 192) * 64 + (b1 - 128))%N :: utf8_decode fuel' r1
        | _ => []
        end
      else if (b0 <? 240)%N then
        match r0 with
        | b1 :: b2 :: r2 =>
          ((b0 - 224) * 4096 + (b1 - 128) * 64 + (b2 - 128))%N :: utf8_decode fuel' r2
        | _ => []
        end
      else
        match r0 with
        | b1 :: b2 :: b3 :: r3 =>
          ((b0 - 240) * 262144 + (b1 - 128) * 4096 + (b2 - 128) * 64 + (b3 - 128))%N
            :: utf8_decode fuel' r3
        | _ => []
        end
    end
  end.

Definition lit (s : string) : str :=
  let bs := map N_of_ascii (list_ascii_of_string s) in
  utf8_decode (length bs) bs.
Arguments lit : simpl never.

(** [str.isspace] on one code point: the characters [str.strip()] removes. *)
Definition is_space (c : N) : bool :=
  ((9 <=? c) && (c <=? 13) || (28 <=? c) && (c <=? 32) || (c =? 133) || (c =? 160)
   || (c =? 5760) || (8192 <=? c) && (c <=? 8202) || (c =? 8232) || (c =? 8233)
   || (c =? 8239) || (c =? 8287) || (c =? 12288))%N.

(** The line boundaries of [str.splitlines()]. *)
Definition is_linebreak (c : N) : bool :=
  ((10 <=? c) && (c <=? 13) || (28 <=? c) && (c <=? 30) || (c =? 133)
   || (c =? 8232) || (c =? 8233))%N.

Fixpoint lstrip (s : str) : str :=
  match s with
  | c :: s' => if is_space c then lstrip s' else s
  | [] => []
  end.

Definition rstrip (s : str) : str := rev (lstrip (rev s)).

(** [s.strip()] *)
Definition strip (s : str) : str := rstrip (lstrip s).

(** [s.splitlines()]: a line ends at a line boundary, "\r\n" counts as one
    boundary, and a boundary at the very end opens no further line. *)
Fixpoint splitlines (s : str) : list str :=
  match s with
  | [] => []
  | c :: rest =>
    if is_linebreak c then
      [] :: match rest with
            | c' :: rest' =>
              if ((c =? 13) && (c' =? 10))%N then splitlines rest' else splitlines rest
            | [] => []
            end
    else
      match splitlines rest with
      | [] => [[c]]
      | l :: ls => (c :: l) :: ls
      end
  end.

Fixpoint startswith (s prefix : str) {struct prefix} : bool :=
  match prefix, s with
  | [], _ => true
  | p :: prefix', c :: s' => (p =? c)%N && startswith s' prefix'
  | _ :: _, [] => false
  end.

(** [needle in hay] *)
Fixpoint contains (hay needle : str) : bool :=
  startswith hay needle
  || match hay with
     | [] => false
     | _ :: hay' => contains hay' needle
     end.

End Str.
Import Str.

(** ** Exceptions *)

Inductive exn : Type :=
| AttributeError
| IndexError
| ValueError
| StopIteration
| FileNotFoundError.

Inductive result (A : Type) : Type :=
| Ok (a : A)
| Raise (e : exn).
Arguments Ok {A} a.
Arguments Raise {A} e.

#[global] Instance result_ret : MRet result := fun A a => Ok a.
#[global] Instance result_bind : MBind result := fun A B f r =>
  match r with
  | Ok a => f a
  | Raise e => Raise e
  end.

Definition is_ok {A} (r : result A) : bool :=
  match r with Ok _ => true | Raise _ => false end.

(** ** The parse tree of BeautifulSoup *)

Module Bs4.

(** A tag carries its name, the values of its [class] attribute (bs4 keeps
    them as a list), its other attributes and its children. *)
#[warnings="-register-all"]
Inductive node : Type :=
| Tag (name : str) (classes : list str) (attrs : gmap str str) (children : list node)
| NavigableString (text : str).

(** The descendants of a node in document order. *)
Fixpoint descendants (n : node) : list node :=
  match n with
  | Tag _ _ _ cs =>
    (fix go (l : list node) : list node :=
       match l with
       | [] => []
       | c :: l' => c :: descendants c ++ go l'
       end) cs
  | NavigableString _ => []
  end.

(** Does a node match [find(name, class_=cls)]? *)
Definition matches (name : str) (cls : option str) (n : node) : bool :=
  match n with
  | Tag nm classes _ _ =>
    bool_decide (nm = name)
    && match cls with
       | None => true
       | Some c => bool_decide (c ∈ classes)
       end
  | NavigableString _ => false
  end.

(** [tag.find_all(name, class_=cls)] *)
Definition find_all (n : node) (name : str) (cls : option str) : list node :=
  List.filter (matches name cls) (descendants n).

(** [tag.find(name, class_=cls)]: the first match, or [None]. *)
Definition find (n : node) (name : str) (cls : option str) : option node :=
  head (find_all n name cls).

(** [tag.get_text()]: the strings below the tag, concatenated. *)
Definition get_text (n : node) : str :=
  concat (omap (fun d => match d with NavigableString t => Some t | Tag _ _ _ _ => None end)
               (descendants n)).

(** [tag.get(key)] *)
Definition get (n : node) (key : str) : option str :=
  match n with
  | Tag _ _ attrs _ => attrs !! key
  | NavigableString _ => None
  end.

(** The same three methods called on the value of an earlier [find], which
    is [None] when nothing matched: Python then raises [AttributeError]. *)
Definition find_on (o : option node) (name : str) (cls : option str) : result (option node) :=
  match o with
  | Some n => Ok (find n name cls)
  | None => Raise AttributeError
  end.

Definition get_text_on (o : option node) : result str :=
  match o with
  | Some n => Ok (get_text n)
  | None => Raise AttributeError
  end.

Definition get_on (o : option node) (key : str) : result (option str) :=
  match o with
  | Some n => Ok (get n key)
  | None => Raise AttributeError
  end.

End Bs4.
Import Bs4.

(** ** The pure stages of the pipeline *)

Definition base_url : str :=
  lit "https://movie.douban.com/top250".

(** [get_params(page)]: the dict with the single key "start". *)
Definition get_params (page : Z) : gmap str Z :=
  {[ lit "start" := (page * 25)%Z ]}.

Definition get_headers : gmap str str :=
  {[ lit "User-Agent" :=
       lit "Mozilla/5.0 (Windows NT 10.0; Win64; x64) AppleWebKit/537.36 (KHTML, like Gecko) Chrome/137.0.0.0 Safari/537.36 Edg/137.0.0.0" ]}.

(** The nationality marker of line 78. *)
Definition marker : str := lit "中国".

(** [item.find("div", class_="bd").find("p").get_text()], the descriptive
    paragraph text that both the filter and the year extraction read. *)
Definition desc_text (item : node) : result str :=
  p ← find_on (find item (lit "div") (Some (lit "bd"))) (lit "p") None;
  get_text_on p.

(** The loop of lines 77-79, with the list it appends to. *)
Fixpoint chinese_items_loop (items chinese_items : list node) : result (list node) :=
  match items with
  | [] => Ok chinese_items
  | item :: rest =>
    text ← desc_text item;
    if contains text marker
    then chinese_items_loop rest (chinese_items ++ [item])
    else chinese_items_loop rest chinese_items
  end.

Definition get_chinese_items (soup : node) : result (list node) :=
  let items := find_all soup (lit "div") (Some (lit "item")) in
  chinese_items_loop items [].

(** [l[i]] on a Python list *)
Definition index {A} (l : list A) (i : nat) : result A :=
  match l !! i with
  | Some x => Ok x
  | None => Raise IndexError
  end.

(** Line 95 after [get_text()]: [.strip().splitlines()[1].strip()[:4]] *)
Definition year_of_text (text : str) : result str :=
  line ← index (splitlines (strip text)) 1;
  Ok (take 4 (strip line)).

(** Lines 94-95 for one item. *)
Definition movie_info (item : node) : result (str * str) :=
  title ← find_on (find item (lit "div") (Some (lit "hd"))) (lit "span") (Some (lit "title"));
  name ← get_text_on title;
  text ← desc_text item;
  year ← year_of_text text;
  Ok (name, year).

Fixpoint movie_infos_loop (items : list node) (movie_infos : list (str * str))
  : result (list (str * str)) :=
  match items with
  | [] => Ok movie_infos
  | item :: rest =>
    info ← movie_info item;
    movie_infos_loop rest (movie_infos ++ [info])
  end.

Definition get_movie_infos (items : list node) : result (list (str * str)) :=
  movie_infos_loop items [].

(** Lines 111-113 for one item; [img.get] yields [None] for a missing
    attribute, so both components are optional. *)
Definition movie_poster (item : node) : result (option str * option str) :=
  img ← find_on (find item (lit "div") (Some (lit "pic"))) (lit "img") None;
  name ← get_on img (lit "alt");
  poster_url ← get_on img (lit "src");
  Ok (name, poster_url).

Fixpoint movie_posters_loop (items : list node) (movie_posters : list (option str * option str))
  : result (list (option str * option str)) :=
  match items with
  | [] => Ok movie_posters
  | item :: rest =>
    poster ← movie_poster item;
    movie_posters_loop rest (movie_posters ++ [poster])
  end.

Definition get_movie_posters (items : list node) : result (list (option str * option str)) :=
  movie_posters_loop items [].

(** [zip(xs, ys)]: stops at the end of the shorter list. *)
Fixpoint py_zip {A B} (xs : list A) (ys : list B) : list (A * B) :=
  match xs, ys with
  | x :: xs', y :: ys' => (x, y) :: py_zip xs' ys'
  | _, _ => []
  end.

(** ** The outside world *)

(** What [requests.get] is called with.  [url] is optional because a
    poster link read with [img.get("src")] may be [None]. *)
Record request : Type := Request {
  url : option str;
  params : gmap str Z;
  headers : gmap str str;
}.

(** A response: its status code, its raw [content], and the tree that
    [BeautifulSoup(response.text, "html.parser")] builds from it. *)
Record response : Type := Response {
  status_code : Z;
  content : list N;
  parsed : node;
}.

(** The subclasses of [requests.RequestException] the program can meet. *)
Inductive request_exception : Type :=
| MissingSchema
| TransportError
| HTTPError (status : Z).

(** The interpreter and the network the program runs against. *)
Record environment : Type := Environment {
  (** the server's answer to a GET, [None] when no response arrives *)
  net : str -> gmap str Z -> gmap str str -> option response;
  (** [Py_UNICODE_TODECIMAL] on the code points from 127 on *)
  todecimal : N -> option N;
  (** [sys.get_int_max_str_digits()], 0 for no limit *)
  int_max_str_digits : nat;
}.

Inductive log_entry : Type :=
| RequestFailed (page : Z) (e : request_exception)        (* line 62, ERROR *)
| PosterFailed (poster_url : option str) (e : request_exception) (* line 151, ERROR *)
| PageDone (page_no : Z) (count : nat).                   (* line 168, INFO *)

(** The files the program writes and the calls it makes.  douban.csv is
    kept as the rows that [csv.writer] wrote and [csv.reader] yields back;
    the [film_img] directory as a map from path to file contents. *)
Record world : Type := World {
  csv_file : option (list (list str));
  img_files : gmap str (list N);
  log_file : list log_entry;
  calls : list request;
  sleeps : nat;
  chart : option (list Z * list nat);
}.

Definition set_csv_file (f : option (list (list str))) (w : world) : world :=
  World f (img_files w) (log_file w) (calls w) (sleeps w) (chart w).
Definition set_img_files (m : gmap str (list N)) (w : world) : world :=
  World (csv_file w) m (log_file w) (calls w) (sleeps w) (chart w).
Definition set_log_file (l : list log_entry) (w : world) : world :=
  World (csv_file w) (img_files w) l (calls w) (sleeps w) (chart w).
Definition set_calls (c : list request) (w : world) : world :=
  World (csv_file w) (img_files w) (log_file w) c (sleeps w) (chart w).
Definition set_sleeps (n : nat) (w : world) : world :=
  World (csv_file w) (img_files w) (log_file w) (calls w) n (chart w).
Definition set_chart (c : option (list Z * list nat)) (w : world) : world :=
  World (csv_file w) (img_files w) (log_file w) (calls w) (sleeps w) c.

(** A computation that may change the world and may raise; what it did to
    the world before raising stays done. *)
Definition io (A : Type) : Type := world -> result A * world.

Definition io_ret {A} (a : A) : io A := fun w => (Ok a, w).
Definition io_bind {A B} (m : io A) (f : A -> io B) : io B := fun w =>
  match m w with
  | (Ok a, w') => f a w'
  | (Raise e, w') => (Raise e, w')
  end.
Definition io_lift {A} (r : result A) : io A := fun w => (r, w).

Declare Scope io_scope.
Delimit Scope io_scope with io.
Notation "x <- m ;; k" := (io_bind m (fun x => k))
  (at level 100, m at next level, right associativity) : io_scope.
Notation "m ;;; k" := (io_bind m (fun _ => k))
  (at level 100, right associativity) : io_scope.

(** The statements of a [try] block in sequence: the first exception wins. *)
Definition and_then {X A B} (r : X + A) (f : A -> X + B) : X + B :=
  match r with
  | inl e => inl e
  | inr a => f a
  end.

(** [response.raise_for_status()]: an [HTTPError] for 4xx and 5xx. *)
Definition raise_for_status (r : response) : request_exception + response :=
  if ((400 <=? status_code r) && (status_code r <? 600))%Z
  then inl (HTTPError (status_code r))
  else inr r.

(** ** The analyzer's pure steps *)

(** [Counter(years)]: a dict from year to count, in insertion order. *)
Fixpoint counter_incr (year : Z) (counter : list (Z * nat)) : list (Z * nat) :=
  match counter with
  | [] => [(year, 1)]
  | (k, n) :: counter' =>
    if (k =? year)%Z then (k, S n) :: counter'
    else (k, n) :: counter_incr year counter'
  end.

Definition Counter (years : list Z) : list (Z * nat) :=
  fold_left (fun counter year => counter_incr year counter) years [].

(** [sorted(counter.items(), key=lambda x: x[0])]: a stable sort on the
    year; an item goes behind the items that are not larger. *)
Fixpoint insert_sorted (x : Z * nat) (l : list (Z * nat)) : list (Z * nat) :=
  match l with
  | [] => [x]
  | h :: t => if (x.1 <? h.1)%Z then x :: h :: t else h :: insert_sorted x t
  end.

Definition sorted_by_year (items : list (Z * nat)) : list (Z * nat) :=
  fold_left (fun acc x => insert_sorted x acc) items [].

(** Lines 186-189: the two series that are plotted. *)
Definition year_histogram (years : list Z) : list (Z * nat) :=
  sorted_by_year (Counter years).

(** ** The stateful functions *)

Section Run.

Context (E : environment).

(** *** [int(s)] for a string *)

(** CPython first rewrites the string to ASCII: non-ASCII spaces become a
    blank and non-ASCII decimal digits the ASCII digit; any other
    non-ASCII character makes the conversion fail. *)
Definition to_ascii (c : N) : option N :=
  if (c <? 127)%N then Some c
  else if is_space c then Some 32%N
  else (fun d => (48 + d)%N) <$> todecimal E c.

Definition is_c_space (c : N) : bool :=
  ((9 <=? c) && (c <=? 13) || (c =? 32))%N.

Fixpoint dropwhile_space (s : list N) : list N :=
  match s with
  | c :: s' => if is_c_space c then dropwhile_space s' else s
  | [] => []
  end.

Definition is_digit (c : N) : bool := ((48 <=? c) && (c <=? 57))%N.

(** The digit scan: digits, with single underscores between them.  It
    yields the value, the number of digits and the unread rest. *)
Fixpoint scan_digits (s : list N) (prev_underscore : bool) (acc : Z) (digits : nat)
  : option (Z * nat * list N) :=
  match s with
  | c :: s' =>
    if is_digit c then scan_digits s' false (acc * 10 + Z.of_N (c - 48))%Z (S digits)
    else if (c =? 95)%N then
      if prev_underscore then None else scan_digits s' true acc digits
    else if prev_underscore then None else Some (acc, digits, s)
  | [] => if prev_underscore then None else Some (acc, digits, [])
  end.

(** The optional sign in front of the digits. *)
Definition split_sign (a : list N) : Z * list N :=
  match a with
  | c :: r =>
    if (c =? 43)%N then (1%Z, r)
    else if (c =? 45)%N then ((-1)%Z, r)
    else (1%Z, a)
  | [] => (1%Z, [])
  end.

Definition starts_with_underscore (a : list N) : bool :=
  match a with
  | c :: _ => (c =? 95)%N
  | [] => false
  end.

(** [int(s)]: blanks, an optional sign, the digits, blanks; more digits
    than the interpreter's limit allows are refused. *)
Definition py_int (s : str) : result Z :=
  match mapM to_ascii s with
  | None => Raise ValueError
  | Some a =>
    let '(sign, a2) := split_sign (dropwhile_space a) in
    if starts_with_underscore a2 then Raise ValueError
    else
      match scan_digits a2 false 0%Z 0 with
      | None => Raise ValueError
      | Some (v, digits, rest) =>
        if bool_decide (0 < int_max_str_digits E ∧ int_max_str_digits E < digits)
        then Raise ValueError
        else if bool_decide (digits = 0) then Raise ValueError
        else match dropwhile_space rest with
             | [] => Ok (sign * v)%Z
             | _ :: _ => Raise ValueError
             end
      end
  end.

(** *** Primitive effects *)

Local Open Scope io_scope.

(** What a call of [requests.get] comes back with; a [RequestException]
    that the surrounding [try] catches is the left branch.  A [None] url is
    refused before anything is sent. *)
Definition send (r : request) : request_exception + response :=
  match url r with
  | None => inl MissingSchema
  | Some u =>
    match net E u (params r) (headers r) with
    | None => inl TransportError
    | Some resp => inr resp
    end
  end.

(** [requests.get(url, params=..., headers=...)] *)
Definition requests_get (r : request) : io (request_exception + response) := fun w =>
  (Ok (send r), set_calls (calls w ++ [r]) w).

Definition logging (entry : log_entry) : io unit := fun w =>
  (Ok tt, set_log_file (log_file w ++ [entry]) w).

(** [writer.writerow(row)] on the file opened for appending *)
Definition writerow (row : list str) : io unit := fun w =>
  (Ok tt, set_csv_file (Some (default [] (csv_file w) ++ [row])) w).

(** [open("douban.csv", "a")] creates the file when it is missing. *)
Definition open_append : io unit := fun w =>
  (Ok tt, set_csv_file (Some (default [] (csv_file w))) w).

(** [open(path, "wb")] and [f.write(data)] *)
Definition write_file (path : str) (data : list N) : io unit := fun w =>
  (Ok tt, set_img_files (<[path := data]> (img_files w)) w).

(** *** The functions of main.py *)

(** Lines 48-63. *)
Definition get_soup (page : Z) : io (option node) :=
  r <- requests_get (Request (Some base_url) (get_params page) get_headers);;
  match and_then r raise_for_status with
  | inr response => io_ret (Some (parsed response))
  | inl e => logging (RequestFailed page e);;; io_ret None
  end.

Definition csv_header : list str :=
  [lit "电影名称"; lit "上映年份"; lit "海报链接"].

(** Lines 118-122: mode "w" truncates. *)
Definition write_csv_header : io unit := fun w =>
  (Ok tt, set_csv_file (Some [csv_header]) w).

(** [csv.writer] writes [None] as the empty field. *)
Definition csv_field (v : option str) : str := default [] v.

Fixpoint write_to_csv_loop (pairs : list ((str * str) * (option str * option str))) : io unit :=
  match pairs with
  | [] => io_ret tt
  | ((name, year), (_, poster_url)) :: rest =>
    writerow [name; year; csv_field poster_url];;;
    write_to_csv_loop rest
  end.

(** Lines 125-135. *)
Definition write_to_csv (movie_infos : list (str * str))
    (movie_posters : list (option str * option str)) : io unit :=
  open_append;;;
  write_to_csv_loop (py_zip movie_infos movie_posters).

(** [f"film_img/{name}.jpg"]; [None] is formatted as the word None. *)
Definition img_path (name : option str) : str :=
  lit "film_img/" ++ default (lit "None") name ++ lit ".jpg".

(** Lines 138-151. *)
Fixpoint write_to_img (movie_posters : list (option str * option str)) : io unit :=
  match movie_posters with
  | [] => io_ret tt
  | (name, poster_url) :: rest =>
    r <- requests_get (Request poster_url ∅ ∅);;
    match and_then r raise_for_status with
    | inr response => write_file (img_path name) (content response)
    | inl e => logging (PosterFailed poster_url e)
    end;;;
    write_to_img rest
  end.

(** Lines 154-168. *)
Definition handle_one_page (page : Z) : io unit :=
  soup <- get_soup page;;
  match soup with
  | None => io_ret tt
  | Some soup =>
    chinese_items <- io_lift (get_chinese_items soup);;
    movie_infos <- io_lift (get_movie_infos chinese_items);;
    movie_posters <- io_lift (get_movie_posters chinese_items);;
    write_to_csv movie_infos movie_posters;;;
    write_to_img movie_posters;;;
    logging (PageDone (page + 1) (length chinese_items))
  end.

(** Lines 171-174: only the number of sleeps is kept. *)
Definition random_sleep : io unit := fun w =>
  (Ok tt, set_sleeps (S (sleeps w)) w).

(** Line 185, the comprehension [[int(row[1]) for row in reader]]. *)
Fixpoint parse_years (rows : list (list str)) : result (list Z) :=
  match rows with
  | [] => Ok []
  | row :: rest =>
    field ← index row 1;
    year ← py_int field;
    years ← parse_years rest;
    Ok (year :: years)
  end.

(** Lines 182-185: open for reading, skip the header, parse the years. *)
Definition read_years : io (list Z) := fun w =>
  match csv_file w with
  | None => (Raise FileNotFoundError, w)
  | Some [] => (Raise StopIteration, w)
  | Some (_ :: data) => (parse_years data, w)
  end.

(** Lines 177-197; the chart keeps the two plotted series. *)
Definition analyze_data : io unit :=
  years <- read_years;;
  let sorted_data := year_histogram years in
  fun w => (Ok tt, set_chart (Some (sorted_data.*1, sorted_data.*2)) w).

(** The loop of lines 213-215. *)
Fixpoint for_pages (pages : list Z) : io unit :=
  match pages with
  | [] => io_ret tt
  | page :: rest =>
    handle_one_page page;;;
    random_sleep;;;
    for_pages rest
  end.

(** Lines 200-216. *)
Definition main : io unit :=
  write_csv_header;;;
  for_pages (seqZ 0 10);;;
  analyze_data.

End Run.

(** ** What a run adds to the world

    Every stateful function only adds to the world: rows to the CSV file,
    files to the poster directory, lines to the log, calls to the trace.
    An [effect] is such an addition; the lemmas of this part show that what
    a page adds does not depend on the world it is added to. *)

Record effect : Type := Effect {
  e_csv : option (list (list str));   (* [None]: the file is not opened *)
  e_imgs : list (str * list N);
  e_log : list log_entry;
  e_calls : list request;
  e_sleeps : nat;
}.

Definition no_effect : effect := Effect None [] [] [] 0.
Definition call_effect (r : request) : effect := Effect None [] [] [r] 0.
Definition log_effect (entry : log_entry) : effect := Effect None [] [entry] [] 0.
Definition file_effect (path : str) (data : list N) : effect :=
  Effect None [(path, data)] [] [] 0.
Definition rows_effect (rows : list (list str)) : effect := Effect (Some rows) [] [] [] 0.
Definition sleep_effect : effect := Effect None [] [] [] 1.

Definition append_csv (rows : option (list (list str))) (f : option (list (list str)))
  : option (list (list str)) :=
  match rows with
  | None => f
  | Some rows => Some (default [] f ++ rows)
  end.

Definition save_imgs (imgs : list (str * list N)) (m : gmap str (list N)) : gmap str (list N) :=
  foldl (fun m pd => <[pd.1 := pd.2]> m) m imgs.

Definition apply_effect (e : effect) (w : world) : world :=
  World (append_csv (e_csv e) (csv_file w))
        (save_imgs (e_imgs e) (img_files w))
        (log_file w ++ e_log e)
        (calls w ++ e_calls e)
        (sleeps w + e_sleeps e)
        (chart w).

Definition effect_seq (e1 e2 : effect) : effect :=
  Effect (match e_csv e2 with
          | None => e_csv e1
          | Some rows2 => Some (default [] (e_csv e1) ++ rows2)
          end)
         (e_imgs e1 ++ e_imgs e2)
         (e_log e1 ++ e_log e2)
         (e_calls e1 ++ e_calls e2)
         (e_sleeps e1 + e_sleeps e2).

(** The row written for one zipped pair (line 135). *)
Definition csv_row (pair : (str * str) * (option str * option str)) : list str :=
  [pair.1.1; pair.1.2; csv_field pair.2.2].

Section Effects.

Context (E : environment).

(** The outcome of [requests.get] followed by [raise_for_status]. *)
Definition fetch (r : request) : request_exception + response :=
  and_then (send E r) raise_for_status.

Definition page_request (page : Z) : request :=
  Request (Some base_url) (get_params page) get_headers.

Definition poster_request (poster_url : option str) : request :=
  Request poster_url ∅ ∅.

Definition poster_effect (poster : option str * option str) : effect :=
  effect_seq (call_effect (poster_request poster.2))
    match fetch (poster_request poster.2) with
    | inr response => file_effect (img_path poster.1) (content response)
    | inl e => log_effect (PosterFailed poster.2 e)
    end.

Fixpoint posters_effect (movie_posters : list (option str * option str)) : effect :=
  match movie_posters with
  | [] => no_effect
  | poster :: rest => effect_seq (poster_effect poster) (posters_effect rest)
  end.

(** The three extraction steps of [handle_one_page] on a fetched page. *)
Definition extract (soup : node)
  : result (list node * list (str * str) * list (option str * option str)) :=
  chinese_items ← get_chinese_items soup;
  movie_infos ← get_movie_infos chinese_items;
  movie_posters ← get_movie_posters chinese_items;
  Ok (chinese_items, movie_infos, movie_posters).

Definition page_effect (page : Z) : result unit * effect :=
  match fetch (page_request page) with
  | inl e =>
    (Ok tt, effect_seq (call_effect (page_request page)) (log_effect (RequestFailed page e)))
  | inr response =>
    match extract (parsed response) with
    | Raise e => (Raise e, call_effect (page_request page))
    | Ok (chinese_items, movie_infos, movie_posters) =>
      (Ok tt,
       effect_seq (call_effect (page_request page))
         (effect_seq (rows_effect (csv_row <$> py_zip movie_infos movie_posters))
            (effect_seq (posters_effect movie_posters)
               (log_effect (PageDone (page + 1) (length chinese_items))))))
    end
  end.

Fixpoint pages_effect (pages : list Z) : result unit * effect :=
  match pages with
  | [] => (Ok tt, no_effect)
  | page :: rest =>
    match page_effect page with
    | (Ok _, e) =>
      let '(r, e') := pages_effect rest in
      (r, effect_seq e (effect_seq sleep_effect e'))
    | (Raise x, e) => (Raise x, e)
    end
  end.

End Effects.

(** ** Definitions the statements use *)

(** The descriptive text contains the nationality marker. *)
Definition marker_in (text : str) : Prop :=
  exists l r, text = l ++ marker ++ r.

(** The test of line 78 as a function of the item. *)
Definition has_marker (item : node) : bool :=
  match desc_text item with
  | Ok text => contains text marker
  | Raise _ => false
  end.

(** The value a counter holds for a year, [None] for a missing key. *)
Fixpoint counter_get (counter : list (Z * nat)) (year : Z) : option nat :=
  match counter with
  | [] => None
  | (k, n) :: counter' => if (k =? year)%Z then Some n else counter_get counter' year
  end.

(** How often a year occurs among the parsed years. *)
Definition occurrences (year : Z) (years : list Z) : nat :=
  length (List.filter (Z.eqb year) years).

(** The order [sorted] is asked to establish. *)
Definition year_le (a b : Z * nat) : Prop := (a.1 <= b.1)%Z.

(** The [start] parameters of the calls that carry one: the page requests. *)
Definition offsets (cs : list request) : list Z :=
  omap (fun r => params r !! lit "start") cs.

(** The calls a run has added to the trace of the world it started in. *)
Definition new_calls (before after : world) : list request :=
  drop (length (calls before)) (calls after).

(** What [get_soup] treats as a failed fetch: no response at all, or a
    response whose status [raise_for_status] rejects. *)
Definition fetch_fails (E : environment) (page : Z) : Prop :=
  match net E base_url (get_params page) get_headers with
  | None => True
  | Some response => (400 <= status_code response < 600)%Z
  end.

(** The files a run leaves behind. *)
Definition persisted (w : world) : option (list (list str)) * gmap str (list N) :=
  (csv_file w, img_files w).

(** The header-then-append path: the header once, then one call of
    [write_to_csv] per batch of extracted tuples. *)
Fixpoint append_batches
    (batches : list (list (str * str) * list (option str * option str))) : io unit :=
  match batches with
  | [] => io_ret tt
  | (movie_infos, movie_posters) :: rest =>
    io_bind (write_to_csv movie_infos movie_posters) (fun _ => append_batches rest)
  end.

Definition header_then_append
    (batches : list (list (str * str) * list (option str * option str))) (w : world) : world :=
  (io_bind write_csv_header (fun _ => append_batches batches) w).2.


(** An item block as the data model describes it: it carries the title
    span, a descriptive paragraph with a second line, and the poster image. *)
Definition carries_fragments (item : node) : Prop :=
  (exists hd title,
      find item (lit "div") (Some (lit "hd")) = Some hd
      /\ find hd (lit "span") (Some (lit "title")) = Some title)
  /\ (exists bd p line,
      find item (lit "div") (Some (lit "bd")) = Some bd
      /\ find bd (lit "p") None = Some p
      /\ splitlines (strip (get_text p)) !! 1 = Some line)
  /\ (exists pic img,
      find item (lit "div") (Some (lit "pic")) = Some pic
      /\ find pic (lit "img") None = Some img).





(** The year extraction as the specification words it: the text is split
    on line breaks, the second line is trimmed and cut to four characters.
    Line 95 trims the text before it splits it; [year_of_text] above is
    the code's version. *)
Definition year_by_spec_words (text : str) : result str :=
  line ← index (splitlines text) 1;
  Ok (take 4 (strip line)).

(** ** Sample data: one entry laid out as the site lays it out *)

Module Sample.

Definition nl : str := [10%N].

Definition tag (name : string) (classes : list string) (children : list node) : node :=
  Tag (lit name) (lit <$> classes) ∅ children.

Definition img (alt src : string) : node :=
  Tag (lit "img") [] (<[lit "alt" := lit alt]> (<[lit "src" := lit src]> ∅)) [].

(** The text of the descriptive paragraph: a line break, the credits, a
    line break, then the line that starts with the year. *)
Definition credits : str := lit "    导演: 陈凯歌 Kaige Chen".
Definition year_line (line : string) : str := lit "    " ++ lit line.

Definition item (title poster line : string) : node :=
  tag "div" ["item"%string]
    [ tag "div" ["pic"%string] [ img title poster ];
      tag "div" ["info"%string]
        [ tag "div" ["hd"%string]
            [ tag "a" [] [ tag "span" ["title"%string] [ NavigableString (lit title) ] ] ];
          tag "div" ["bd"%string]
            [ tag "p" []
                [ NavigableString (nl ++ credits);
                  tag "br" [] [];
                  NavigableString (nl ++ year_line line ++ nl) ] ] ] ].

Definition farewell : node :=
  item "霸王别姬" "https://img.example/p1.jpg" "1993 / 中国大陆 中国香港 / 剧情 爱情".
Definition shawshank : node :=
  item "肖申克的救赎" "https://img.example/p2.jpg" "1994 / 美国 / 犯罪 剧情".
Definition hero : node :=
  item "大话西游" "https://img.example/p3.jpg" "1995 / 中国香港 中国大陆 / 喜剧".

(** An item block that has the paragraph but no poster. *)
Definition no_poster : node :=
  tag "div" ["item"%string]
    [ tag "div" ["hd"%string] [ tag "span" ["title"%string] [ NavigableString (lit "无题") ] ];
      tag "div" ["bd"%string] [ tag "p" [] [ NavigableString (lit "中国") ] ] ].

Definition soup : node :=
  tag "[document]" [] [ tag "ol" ["grid_view"%string] [ farewell; shawshank; hero ] ].

Definition farewell_text : str :=
  nl ++ credits ++ nl ++ year_line "1993 / 中国大陆 中国香港 / 剧情 爱情" ++ nl.

Definition empty_world : world := World None ∅ [] [] 0 None.

(** A server that answers every request with the given status and page. *)
Definition server (status : Z) (page : node) : environment :=
  Environment (fun _ _ _ => Some (Response status [] page)) (fun _ => None) 4300.

(** A server on which the page at one offset cannot be fetched. *)
Definition server_down_at (offset : Z) (page : node) : environment :=
  Environment
    (fun _ params _ =>
       if bool_decide (params !! lit "start" = Some offset) then None
       else Some (Response 200 [] page))
    (fun _ => None) 4300.

End Sample.

(** ** Definitions for the properties of whole runs *)

(** The log lines and the CSV rows a run has added. *)
Definition new_log (before after : world) : list log_entry :=
  drop (length (log_file before)) (log_file after).


(** The page a log line is about: line 62 logs the page index, line 168
    the index plus one; the lines of failed downloads name no page. *)
Definition entry_page (entry : log_entry) : option Z :=
  match entry with
  | RequestFailed page _ => Some page
  | PageDone page_no _ => Some (page_no - 1)%Z
  | PosterFailed _ _ => None
  end.




Module Fixture.


(** A page with an item block whose paragraph has one line only. *)
Definition broken_soup : node :=
  Sample.tag "[document]" [] [Sample.farewell; Sample.no_poster].

(** A server that answers the page at one offset with another document. *)
Definition server_with_page_at (offset : Z) (special usual : node) : environment :=
  Environment
    (fun _ params _ =>
       if bool_decide (params !! lit "start" = Some offset)
       then Some (Response 200 [] special)
       else Some (Response 200 [] usual))
    (fun _ => None) 4300.

End Fixture.

(** * Properties *)

(** ** Strings *)

Example lit_marker : marker = [20013; 22269]%N.
Proof. reflexivity. Qed.

Example splitlines_ex :
  splitlines (lit "ab" ++ [13; 10]%N ++ lit "c" ++ [10; 10]%N ++ lit "d" ++ [10]%N)
  = [lit "ab"; lit "c"; []; lit "d"].
Proof. reflexivity. Qed.

Example strip_ex : strip ([10; 32; 12288]%N ++ lit "a b" ++ [9; 10]%N) = lit "a b".
Proof. reflexivity. Qed.

Lemma startswith_spec (s prefix : str) :
  startswith s prefix = true <-> exists r, s = prefix ++ r.
Proof.
  revert s; induction prefix as [|p prefix IH]; intros s; simpl.
  - split; [intros _; by exists s | done].
  - destruct s as [|c s].
    + split; [done | intros [r Hr]; discriminate Hr].
    + rewrite andb_true_iff, N.eqb_eq, IH. split.
      * intros [-> [r ->]]. by exists r.
      * intros [r Hr]. injection Hr as -> ->. eauto.
Qed.

Lemma contains_spec (hay needle : str) :
  contains hay needle = true <-> exists l r, hay = l ++ needle ++ r.
Proof.
  induction hay as [|c hay IH]; simpl; rewrite orb_true_iff, startswith_spec.
  - split.
    + intros [[r Hr]|?]; [|done]. by exists [], r.
    + intros (l & r & Hlr). left. exists r.
      destruct l; [done | discriminate Hlr].
  - rewrite IH. split.
    + intros [[r Hr]|(l & r & ->)]; [by exists [], r | by exists (c :: l), r].
    + intros (l & r & Hlr). destruct l as [|c' l].
      * left. by exists r.
      * right. injection Hlr as -> ->. eauto.
Qed.

Lemma has_marker_spec (item : node) :
  has_marker item = true <-> exists text, desc_text item = Ok text /\ marker_in text.
Proof.
  unfold has_marker, marker_in. destruct (desc_text item) as [text|e].
  - rewrite contains_spec. split; [eauto | by intros (? & [= <-] & ?)].
  - split; [done | by intros (? & ? & ?)].
Qed.

(** ** The filter (lines 75-80) *)

Lemma chinese_items_loop_cons (item : node) (rest acc : list node) :
  chinese_items_loop (item :: rest) acc =
  match desc_text item with
  | Ok _ => chinese_items_loop rest (acc ++ List.filter has_marker [item])
  | Raise e => Raise e
  end.
Proof.
  simpl. unfold has_marker. destruct (desc_text item) as [text|e]; simpl; [|done].
  destruct (contains text marker); [done | by rewrite app_nil_r].
Qed.

Lemma chinese_items_loop_ok (items acc out : list node) :
  chinese_items_loop items acc = Ok out ->
  out = acc ++ List.filter has_marker items
  /\ Forall (fun item => is_ok (desc_text item) = true) items.
Proof.
  revert acc; induction items as [|item items IH]; intros acc.
  - simpl. intros [= <-]. by rewrite app_nil_r.
  - rewrite chinese_items_loop_cons.
    destruct (desc_text item) as [text|e] eqn:Htext; [|done].
    intros [Hout Hok]%IH. split.
    + rewrite Hout, <- app_assoc. f_equal. simpl. by destruct (has_marker item).
    + constructor; [by rewrite Htext | done].
Qed.

Lemma chinese_items_loop_total (items acc : list node) :
  Forall (fun item => is_ok (desc_text item) = true) items ->
  chinese_items_loop items acc = Ok (acc ++ List.filter has_marker items).
Proof.
  intros H; revert acc; induction H as [|item items Hok _ IH]; intros acc.
  - simpl. by rewrite app_nil_r.
  - rewrite chinese_items_loop_cons.
    destruct (desc_text item) as [text|e]; [|done].
    rewrite IH, <- app_assoc. do 2 f_equal. simpl. by destruct (has_marker item).
Qed.

Lemma filter_sublist {A} (f : A -> bool) (l : list A) : sublist (List.filter f l) l.
Proof.
  induction l as [|x l IH]; simpl; [constructor|].
  destruct (f x); by constructor.
Qed.

Lemma elem_of_filter_bool {A} (f : A -> bool) (l : list A) (x : A) :
  x ∈ List.filter f l <-> x ∈ l /\ f x = true.
Proof. rewrite !list_elem_of_In. apply filter_In. Qed.

Lemma filter_all_true {A} (f : A -> bool) (l : list A) :
  Forall (fun x => f x = true) l -> List.filter f l = l.
Proof.
  induction 1 as [|x l Hx _ IH]; simpl; [done|]. by rewrite Hx, IH.
Qed.

(** C4.  Whenever the filter returns, its output is the sub-list of the
    document's item blocks whose descriptive paragraph text contains the
    marker: a block without the marker is not in it, every block with the
    marker is, document order is kept, and two blocks with the same
    descriptive text are kept or dropped alike.  It returns exactly when
    every item block has the nested paragraph. *)
Theorem get_chinese_items_keeps_marked (soup : node) :
  let items := find_all soup (lit "div") (Some (lit "item")) in
  (Forall (fun item => is_ok (desc_text item) = true) items
   <-> is_ok (get_chinese_items soup) = true)
  /\ forall out, get_chinese_items soup = Ok out ->
     out = List.filter has_marker items
     /\ (forall item text, item ∈ items -> desc_text item = Ok text ->
         ~ marker_in text -> item ∉ out)
     /\ (forall item text, item ∈ items -> desc_text item = Ok text ->
         marker_in text -> item ∈ out)
     /\ sublist out items
     /\ (forall item1 item2, item1 ∈ items -> item2 ∈ items ->
         desc_text item1 = desc_text item2 -> (item1 ∈ out <-> item2 ∈ out)).
Proof.
  intros items. split.
  - unfold get_chinese_items. fold items. split.
    + intros H. by rewrite chinese_items_loop_total.
    + destruct (chinese_items_loop items []) as [out|] eqn:Hout; [|done].
      intros _. by apply chinese_items_loop_ok in Hout as [_ ?].
  - intros out Hout. unfold get_chinese_items in Hout. fold items in Hout.
    apply chinese_items_loop_ok in Hout as [-> _]. cbn [app].
    split; [done|]. split; [|split; [|split]].
    + intros item text _ Htext Hno [_ Hin]%elem_of_filter_bool.
      apply has_marker_spec in Hin as (text' & Htext' & Hm). congruence.
    + intros item text Hitem Htext Hm. apply elem_of_filter_bool.
      split; [done|]. apply has_marker_spec. eauto.
    + apply filter_sublist.
    + intros item1 item2 Hitem1 Hitem2 Hsame.
      rewrite !elem_of_filter_bool. unfold has_marker. rewrite Hsame. tauto.
Qed.

Lemma get_chinese_items_keeps_marked_witness :
  is_ok (get_chinese_items Sample.soup) = true
  /\ [Sample.farewell; Sample.hero]
     = List.filter has_marker (find_all Sample.soup (lit "div") (Some (lit "item")))
  /\ Sample.shawshank ∉ [Sample.farewell; Sample.hero].
Proof.
  destruct (get_chinese_items_keeps_marked Sample.soup) as [Hreturns Hout].
  split.
  - apply Hreturns. vm_compute. repeat constructor.
  - destruct (Hout [Sample.farewell; Sample.hero]) as (Hfilter & Habsent & _).
    + vm_compute; reflexivity.
    + split; [exact Hfilter|].
      apply (Habsent Sample.shawshank
               (Sample.nl ++ Sample.credits ++ Sample.nl
                ++ Sample.year_line "1994 / 美国 / 犯罪 剧情" ++ Sample.nl)).
      * apply list_elem_of_In. vm_compute. right. left. reflexivity.
      * vm_compute; reflexivity.
      * intros Hm%contains_spec. vm_compute in Hm. discriminate Hm.
Defined.

(** C9.  Filtering a list that is itself the output of the filtering step
    returns that list again. *)
Theorem chinese_items_loop_idempotent (items out : list node) :
  chinese_items_loop items [] = Ok out ->
  chinese_items_loop out [] = Ok out.
Proof.
  intros [-> Hok]%chinese_items_loop_ok. simpl.
  rewrite chinese_items_loop_total.
  - simpl. f_equal. apply filter_all_true, Forall_forall.
    by intros item [_ ?]%elem_of_filter_bool.
  - apply Forall_forall. intros item [_ Hm]%elem_of_filter_bool.
    unfold has_marker in Hm. by destruct (desc_text item).
Qed.

Lemma chinese_items_loop_idempotent_witness :
  chinese_items_loop [Sample.farewell; Sample.hero] [] = Ok [Sample.farewell; Sample.hero].
Proof.
  apply (chinese_items_loop_idempotent [Sample.farewell; Sample.shawshank; Sample.hero]).
  vm_compute; reflexivity.
Defined.

(** ** The two extraction loops (lines 83-115) *)

Section Collect.

Context {A : Type} (f : node -> result A).
Context (loop : list node -> list A -> result (list A)).
Hypothesis loop_nil : forall acc, loop [] acc = Ok acc.
Hypothesis loop_cons : forall item rest acc,
  loop (item :: rest) acc =
  match f item with
  | Ok x => loop rest (acc ++ [x])
  | Raise e => Raise e
  end.

Lemma collect_ok (items : list node) (acc out : list A) :
  loop items acc = Ok out ->
  exists xs, out = acc ++ xs /\ Forall2 (fun item x => f item = Ok x) items xs.
Proof.
  revert acc; induction items as [|item items IH]; intros acc.
  - rewrite loop_nil. intros [= <-]. exists []. by rewrite app_nil_r.
  - rewrite loop_cons. destruct (f item) as [x|e] eqn:Hx; [|done].
    intros (xs & -> & Hxs)%IH. exists (x :: xs).
    rewrite <- app_assoc. by split; [|constructor].
Qed.

Lemma collect_total (items : list node) (acc : list A) :
  Forall (fun item => is_ok (f item) = true) items ->
  is_ok (loop items acc) = true.
Proof.
  intros H; revert acc; induction H as [|item items Hok _ IH]; intros acc.
  - by rewrite loop_nil.
  - rewrite loop_cons. by destruct (f item).
Qed.

End Collect.

Lemma get_movie_infos_ok (items : list node) (infos : list (str * str)) :
  get_movie_infos items = Ok infos ->
  Forall2 (fun item info => movie_info item = Ok info) items infos.
Proof.
  intros H. eapply collect_ok in H as (xs & -> & Hxs); [done| |]; simpl; [done|].
  intros item rest acc. by destruct (movie_info item).
Qed.

Lemma get_movie_posters_ok (items : list node) (posters : list (option str * option str)) :
  get_movie_posters items = Ok posters ->
  Forall2 (fun item poster => movie_poster item = Ok poster) items posters.
Proof.
  intros H. eapply collect_ok in H as (xs & -> & Hxs); [done| |]; simpl; [done|].
  intros item rest acc. by destruct (movie_poster item).
Qed.

Lemma carries_fragments_ok (item : node) :
  carries_fragments item ->
  is_ok (movie_info item) = true /\ is_ok (movie_poster item) = true.
Proof.
  intros ((hd & title & Hhd & Htitle) & (bd & p & line & Hbd & Hp & Hline)
          & (pic & img & Hpic & Himg)).
  unfold movie_info, movie_poster, desc_text, year_of_text, index.
  rewrite Hhd, Hbd, Hpic. cbn. rewrite Htitle, Hp, Himg. cbn. by rewrite Hline.
Qed.

(** C2.  Whenever the two extraction functions return, each result holds
    exactly one tuple per input block, the tuple extracted from the block at
    the same position, so both results are as long as the input; and they
    return whenever every block carries the fragments they look up. *)
Theorem extraction_one_tuple_per_block (items : list node) :
  (forall infos, get_movie_infos items = Ok infos ->
     Forall2 (fun item info => movie_info item = Ok info) items infos
     /\ length infos = length items)
  /\ (forall posters, get_movie_posters items = Ok posters ->
     Forall2 (fun item poster => movie_poster item = Ok poster) items posters
     /\ length posters = length items)
  /\ (Forall carries_fragments items ->
      exists infos posters,
        get_movie_infos items = Ok infos /\ get_movie_posters items = Ok posters
        /\ length infos = length items /\ length posters = length items).
Proof.
  assert (forall infos, get_movie_infos items = Ok infos ->
     Forall2 (fun item info => movie_info item = Ok info) items infos
     /\ length infos = length items) as Hinfos.
  { intros infos H%get_movie_infos_ok. split; [done|].
    symmetry. by eapply Forall2_length. }
  assert (forall posters, get_movie_posters items = Ok posters ->
     Forall2 (fun item poster => movie_poster item = Ok poster) items posters
     /\ length posters = length items) as Hposters.
  { intros posters H%get_movie_posters_ok. split; [done|].
    symmetry. by eapply Forall2_length. }
  split; [done|]. split; [done|]. intros Hitems.
  assert (is_ok (get_movie_infos items) = true) as Hok1.
  { apply (collect_total movie_info); cbn; [done| |].
    - intros item rest acc. by destruct (movie_info item).
    - eapply Forall_impl; [exact Hitems|]. by intros item [? _]%carries_fragments_ok. }
  assert (is_ok (get_movie_posters items) = true) as Hok2.
  { apply (collect_total movie_poster); cbn; [done| |].
    - intros item rest acc. by destruct (movie_poster item).
    - eapply Forall_impl; [exact Hitems|]. by intros item [_ ?]%carries_fragments_ok. }
  destruct (get_movie_infos items) as [infos|] eqn:H1; [|done].
  destruct (get_movie_posters items) as [posters|] eqn:H2; [|done].
  exists infos, posters. split; [done|]. split; [done|].
  split; [by apply Hinfos | by apply Hposters].
Qed.

Lemma movie_info_year (item : node) (name year : str) :
  movie_info item = Ok (name, year) ->
  exists text, desc_text item = Ok text /\ year_of_text text = Ok year.
Proof.
  unfold movie_info.
  destruct (find_on _ _ _) as [title|]; simpl; [|done].
  destruct (get_text_on title) as [name'|]; simpl; [|done].
  destruct (desc_text item) as [text|]; simpl; [|done].
  destruct (year_of_text text) as [year'|] eqn:Hy; simpl; [|done].
  intros [= _ <-]. eauto.
Qed.

(** C1 (amended).  The year that [get_movie_infos] gives for a block is a
    function of the block's descriptive paragraph text alone: the text is
    trimmed, then split on line breaks, and the year is the first four
    characters of the trimmed second line. *)
Theorem year_from_trimmed_text (items : list node) (infos : list (str * str))
    (i : nat) (item : node) :
  get_movie_infos items = Ok infos ->
  items !! i = Some item ->
  exists name text line,
    desc_text item = Ok text
    /\ splitlines (strip text) !! 1 = Some line
    /\ infos !! i = Some (name, take 4 (strip line))
    /\ year_of_text text = Ok (take 4 (strip line)).
Proof.
  intros Hinfos%get_movie_infos_ok Hitem.
  destruct (Forall2_lookup_l _ _ _ _ _ Hinfos Hitem) as ([name year] & Hi & Hinfo).
  apply movie_info_year in Hinfo as (text & Htext & Hyear).
  unfold year_of_text, index in Hyear.
  destruct (splitlines (strip text) !! 1) as [line|] eqn:Hline; simpl in Hyear; [|done].
  injection Hyear as <-. exists name, text, line.
  unfold year_of_text, index. by rewrite Hline.
Qed.

(** C1, as the specification words it, fails on the site's own layout: the
    paragraph text starts with a line break, so the second line of the
    untrimmed text is the credits line, while the code yields the year. *)
Lemma year_by_spec_words_differs :
  get_movie_infos [Sample.farewell] = Ok [(lit "霸王别姬", lit "1993")]
  /\ desc_text Sample.farewell = Ok Sample.farewell_text
  /\ year_by_spec_words Sample.farewell_text = Ok (lit "导演: ")
  /\ lit "1993" <> lit "导演: ".
Proof.
  split; [vm_compute; reflexivity|].
  split; [vm_compute; reflexivity|].
  split; [vm_compute; reflexivity|].
  vm_compute. discriminate.
Qed.

Lemma year_from_trimmed_text_witness :
  exists name text line,
    desc_text Sample.farewell = Ok text
    /\ splitlines (strip text) !! 1 = Some line
    /\ [(lit "霸王别姬", lit "1993")] !! 0 = Some (name, take 4 (strip line))
    /\ year_of_text text = Ok (take 4 (strip line)).
Proof.
  apply (year_from_trimmed_text [Sample.farewell] [(lit "霸王别姬", lit "1993")] 0
           Sample.farewell); vm_compute; reflexivity.
Defined.

Example sample_carries_fragments :
  Forall carries_fragments [Sample.farewell; Sample.hero].
Proof.
  repeat constructor.
  all: try (eexists _, _; split; vm_compute; reflexivity).
  all: eexists _, _, _; split; [|split]; vm_compute; reflexivity.
Qed.

Lemma extraction_one_tuple_per_block_witness :
  (Forall2 (fun item info => movie_info item = Ok info)
     [Sample.farewell; Sample.hero]
     [(lit "霸王别姬", lit "1993"); (lit "大话西游", lit "1995")]
   /\ length [(lit "霸王别姬", lit "1993"); (lit "大话西游", lit "1995")]
      = length [Sample.farewell; Sample.hero])
  /\ exists infos posters,
       get_movie_infos [Sample.farewell; Sample.hero] = Ok infos
       /\ get_movie_posters [Sample.farewell; Sample.hero] = Ok posters
       /\ length infos = length [Sample.farewell; Sample.hero]
       /\ length posters = length [Sample.farewell; Sample.hero].
Proof.
  destruct (extraction_one_tuple_per_block [Sample.farewell; Sample.hero])
    as (Hinfos & _ & Hreturn).
  split.
  - apply Hinfos. vm_compute; reflexivity.
  - apply Hreturn. repeat constructor.
    all: try (eexists _, _; split; vm_compute; reflexivity).
    all: eexists _, _, _; split; [|split]; vm_compute; reflexivity.
Defined.

(** A block of a filtered list that lacks the poster makes the extraction
    raise, as any failed lookup does. *)
Example missing_poster_raises :
  get_chinese_items (Sample.tag "[document]" [] [Sample.no_poster]) = Ok [Sample.no_poster]
  /\ get_movie_posters [Sample.no_poster] = Raise AttributeError.
Proof. split; vm_compute; reflexivity. Qed.

(** ** Effects *)

Lemma apply_no_effect (w : world) : apply_effect no_effect w = w.
Proof.
  destruct w. unfold apply_effect; simpl. by rewrite app_nil_r, app_nil_r, Nat.add_0_r.
Qed.

Lemma append_csv_seq (rows1 rows2 f : option (list (list str))) :
  append_csv (match rows2 with
              | None => rows1
              | Some r2 => Some (default [] rows1 ++ r2)
              end) f
  = append_csv rows2 (append_csv rows1 f).
Proof.
  destruct rows2 as [r2|], rows1 as [r1|]; simpl; try done.
  by rewrite app_assoc.
Qed.

Lemma apply_effect_seq (e1 e2 : effect) (w : world) :
  apply_effect (effect_seq e1 e2) w = apply_effect e2 (apply_effect e1 w).
Proof.
  destruct w, e1, e2. unfold apply_effect, effect_seq; simpl.
  rewrite append_csv_seq. unfold save_imgs. rewrite foldl_app.
  by rewrite !app_assoc, Nat.add_assoc.
Qed.

Lemma write_to_csv_loop_effect (pairs : list ((str * str) * (option str * option str)))
    (w : world) (f : list (list str)) :
  csv_file w = Some f ->
  write_to_csv_loop pairs w = (Ok tt, set_csv_file (Some (f ++ (csv_row <$> pairs))) w).
Proof.
  revert w f; induction pairs as [|[[name year] [name' poster_url]] pairs IH]; intros w f Hf.
  - destruct w. simpl in *. unfold io_ret, set_csv_file; simpl. by rewrite app_nil_r, Hf.
  - simpl. unfold io_bind, writerow. rewrite Hf. simpl.
    rewrite (IH _ (f ++ [[name; year; csv_field poster_url]])); [|done].
    destruct w; unfold set_csv_file; simpl. by rewrite <- app_assoc.
Qed.

Lemma write_to_csv_effect (movie_infos : list (str * str))
    (movie_posters : list (option str * option str)) (w : world) :
  write_to_csv movie_infos movie_posters w
  = (Ok tt, apply_effect (rows_effect (csv_row <$> py_zip movie_infos movie_posters)) w).
Proof.
  unfold write_to_csv, io_bind. simpl.
  rewrite (write_to_csv_loop_effect _ _ (default [] (csv_file w))); [|done].
  destruct w. unfold apply_effect, set_csv_file; simpl.
  by rewrite app_nil_r, app_nil_r, Nat.add_0_r.
Qed.

(** ** Writing the rows (lines 125-135) *)

Lemma py_zip_length {A B} (xs : list A) (ys : list B) :
  length (py_zip xs ys) = length xs `min` length ys.
Proof.
  revert ys; induction xs as [|x xs IH]; intros [|y ys]; simpl; try done.
  by rewrite IH.
Qed.

Lemma py_zip_lookup {A B} (xs : list A) (ys : list B) (i : nat) (x : A) (y : B) :
  xs !! i = Some x -> ys !! i = Some y -> py_zip xs ys !! i = Some (x, y).
Proof.
  revert ys i; induction xs as [|x' xs IH]; intros [|y' ys] [|i]; simpl; try done.
  - by intros [= ->] [= ->].
  - apply IH.
Qed.

Lemma py_zip_take {A B} (xs : list A) (ys : list B) :
  let n := length xs `min` length ys in
  py_zip xs ys = py_zip (take n xs) (take n ys).
Proof.
  revert ys; induction xs as [|x xs IH]; intros [|y ys]; simpl; try done.
  f_equal. apply IH.
Qed.



(** C10.  For lists of any two lengths, [write_to_csv] raises nothing, logs
    nothing, and appends as many rows as the shorter list has entries: the
    rows of the two lists cut to that length. *)
Theorem write_to_csv_truncates (movie_infos : list (str * str))
    (movie_posters : list (option str * option str)) (w : world) :
  let n := length movie_infos `min` length movie_posters in
  exists rows,
    write_to_csv movie_infos movie_posters w
    = (Ok tt, set_csv_file (Some (default [] (csv_file w) ++ rows)) w)
    /\ length rows = n
    /\ rows = csv_row <$> py_zip (take n movie_infos) (take n movie_posters)
    /\ (forall i name year name' poster_url,
         movie_infos !! i = Some (name, year) ->
         movie_posters !! i = Some (name', poster_url) ->
         rows !! i = Some [name; year; csv_field poster_url])
    /\ log_file (write_to_csv movie_infos movie_posters w).2 = log_file w.
Proof.
  intros n. exists (csv_row <$> py_zip movie_infos movie_posters).
  rewrite write_to_csv_effect. split; [|split; [|split; [|split]]].
  - destruct w; unfold apply_effect, set_csv_file; simpl.
    by rewrite !app_nil_r, Nat.add_0_r.
  - by rewrite length_fmap, py_zip_length.
  - f_equal. apply py_zip_take.
  - intros i name year name' poster_url Hinfo Hposter.
    by rewrite list_lookup_fmap, (py_zip_lookup _ _ _ _ _ Hinfo Hposter).
  - simpl. by rewrite app_nil_r.
Qed.

Lemma write_to_csv_truncates_witness :
  csv_file (write_to_csv [(lit "A", lit "2001"); (lit "B", lit "2003"); (lit "C", lit "2005")]
                         [(Some (lit "A"), Some (lit "u1"))]
                         Sample.empty_world).2
  = Some [[lit "A"; lit "2001"; lit "u1"]].
Proof.
  destruct (write_to_csv_truncates
              [(lit "A", lit "2001"); (lit "B", lit "2003"); (lit "C", lit "2005")]
              [(Some (lit "A"), Some (lit "u1"))] Sample.empty_world)
    as (rows & -> & Hlen & _ & Hrows & _).
  destruct rows as [|row [|row' rows]]; [discriminate Hlen| |discriminate Hlen].
  specialize (Hrows 0 (lit "A") (lit "2001") (Some (lit "A")) (Some (lit "u1"))
                eq_refl eq_refl).
  injection Hrows as ->. reflexivity.
Defined.

(** ** The histogram (lines 186-189) *)

Lemma counter_get_incr (counter : list (Z * nat)) (year k : Z) :
  counter_get (counter_incr year counter) k
  = if (year =? k)%Z then Some (S (default 0 (counter_get counter year)))
    else counter_get counter k.
Proof.
  induction counter as [|[k' n] counter IH]; simpl.
  - done.
  - destruct (k' =? year)%Z eqn:Hk'; simpl.
    + apply Z.eqb_eq in Hk' as ->. by destruct (year =? k)%Z.
    + rewrite IH. destruct (year =? k)%Z eqn:Hy; [|done].
      apply Z.eqb_eq in Hy as <-. by rewrite Hk'.
Qed.

Lemma counter_incr_keys (counter : list (Z * nat)) (year : Z) :
  (counter_incr year counter).*1
  = if bool_decide (year ∈ counter.*1) then counter.*1 else counter.*1 ++ [year].
Proof.
  induction counter as [|[k n] counter IH]; [done|].
  simpl counter_incr. destruct (k =? year)%Z eqn:Hk; rewrite !fmap_cons; cbn [fst].
  - apply Z.eqb_eq in Hk as ->. rewrite bool_decide_eq_true_2; [done|]. left.
  - apply Z.eqb_neq in Hk. rewrite IH. case_bool_decide as Hin.
    + rewrite bool_decide_eq_true_2; [done|]. by right.
    + rewrite bool_decide_eq_false_2; [done|]. by intros [->|?]%elem_of_cons.
Qed.

Lemma Counter_snoc (years : list Z) (year : Z) :
  Counter (years ++ [year]) = counter_incr year (Counter years).
Proof. unfold Counter. by rewrite fold_left_app. Qed.

Lemma occurrences_snoc (k : Z) (years : list Z) (year : Z) :
  occurrences k (years ++ [year])
  = if (year =? k)%Z then S (occurrences k years) else occurrences k years.
Proof.
  unfold occurrences. rewrite List.filter_app, length_app. simpl.
  rewrite (Z.eqb_sym k year). destruct (year =? k)%Z; simpl; lia.
Qed.

Lemma Counter_get (years : list Z) (k : Z) :
  counter_get (Counter years) k
  = if bool_decide (occurrences k years = 0) then None else Some (occurrences k years).
Proof.
  induction years as [|year years IH] using rev_ind; [done|].
  rewrite Counter_snoc, counter_get_incr, occurrences_snoc.
  destruct (year =? k)%Z eqn:Hy; [|done].
  apply Z.eqb_eq in Hy as ->. rewrite IH.
  rewrite (bool_decide_eq_false_2 (S _ = 0)); [|done].
  by case_bool_decide as H0; [rewrite H0|].
Qed.

Lemma Counter_NoDup (years : list Z) : NoDup (Counter years).*1.
Proof.
  induction years as [|year years IH] using rev_ind; [constructor|].
  rewrite Counter_snoc, counter_incr_keys. case_bool_decide as Hin; [done|].
  apply NoDup_app. split; [done|]. split; [|apply NoDup_singleton].
  by intros x Hx ->%list_elem_of_singleton.
Qed.

Lemma elem_of_counter (counter : list (Z * nat)) (k : Z) (n : nat) :
  NoDup counter.*1 ->
  (k, n) ∈ counter <-> counter_get counter k = Some n.
Proof.
  induction counter as [|[k' n'] counter IH]; simpl.
  - intros _. split; [by intros ?%not_elem_of_nil | done].
  - intros [Hk' Hnd]%NoDup_cons. rewrite elem_of_cons, (IH Hnd).
    destruct (k' =? k)%Z eqn:Hk.
    + apply Z.eqb_eq in Hk as ->. split.
      * intros [[= ->]|Hget]; [done|]. apply IH in Hget; [|done].
        destruct Hk'. apply list_elem_of_fmap. by exists (k, n).
      * intros [= ->]. by left.
    + apply Z.eqb_neq in Hk. split; [|by right].
      by intros [[= <-]|?].
Qed.

Lemma insert_sorted_perm (x : Z * nat) (l : list (Z * nat)) :
  insert_sorted x l ≡ₚ x :: l.
Proof.
  induction l as [|h t IH]; simpl; [done|].
  destruct (x.1 <? h.1)%Z; [done|]. by rewrite IH, Permutation_swap.
Qed.

Lemma sorted_by_year_perm_acc (items acc : list (Z * nat)) :
  fold_left (fun acc x => insert_sorted x acc) items acc ≡ₚ acc ++ items.
Proof.
  revert acc; induction items as [|x items IH]; intros acc; simpl.
  - by rewrite app_nil_r.
  - rewrite IH, insert_sorted_perm. apply Permutation_middle.
Qed.

Lemma sorted_by_year_perm (items : list (Z * nat)) : sorted_by_year items ≡ₚ items.
Proof. apply sorted_by_year_perm_acc. Qed.

Lemma insert_sorted_sorted (x : Z * nat) (l : list (Z * nat)) :
  StronglySorted year_le l -> StronglySorted year_le (insert_sorted x l).
Proof.
  induction 1 as [|h t Hss IH Hall]; simpl; [repeat constructor|].
  destruct (x.1 <? h.1)%Z eqn:Hlt.
  - apply Z.ltb_lt in Hlt. constructor; [by constructor|].
    constructor; [unfold year_le; lia|].
    eapply Forall_impl; [exact Hall|]. unfold year_le. intros; simpl in *; lia.
  - apply Z.ltb_ge in Hlt. constructor; [done|].
    rewrite insert_sorted_perm. by constructor.
Qed.

Lemma sorted_by_year_sorted (items : list (Z * nat)) :
  StronglySorted year_le (sorted_by_year items).
Proof.
  unfold sorted_by_year.
  assert (forall acc, StronglySorted year_le acc ->
            StronglySorted year_le (fold_left (fun acc x => insert_sorted x acc) items acc))
    as H; [|apply H; constructor].
  induction items as [|x items IH]; intros acc Hacc; simpl; [done|].
  by apply IH, insert_sorted_sorted.
Qed.

Lemma sorted_nodup_strict (l : list Z) :
  StronglySorted Z.le l -> NoDup l -> StronglySorted Z.lt l.
Proof.
  induction 1 as [|x l Hss IH Hall]; [constructor|].
  intros [Hx Hnd]%NoDup_cons; constructor; [auto|].
  apply Forall_forall. intros y Hy.
  rewrite Forall_forall in Hall. specialize (Hall y Hy).
  assert (x <> y) by (by intros ->). lia.
Qed.

Lemma analyze_data_chart (E : environment) (w : world) (years : list Z) :
  (read_years E w).1 = Ok years ->
  analyze_data E w
  = (Ok tt, set_chart (Some ((year_histogram years).*1, (year_histogram years).*2)) w).
Proof.
  unfold analyze_data, io_bind, read_years.
  destruct (csv_file w) as [[|header data]|]; cbn; try done.
  by intros ->.
Qed.

(** C7.  The histogram lists the years in strictly ascending order, holds a
    pair for exactly the years that occur, each with the number of records
    of that year, and on [2001, 2001, 2003] it is [(2001, 2), (2003, 1)];
    it is what the analyzer plots for the years it has read. *)
Theorem year_histogram_counts_sorted (years : list Z) :
  StronglySorted Z.lt (year_histogram years).*1
  /\ (forall year n, (year, n) ∈ year_histogram years
                    <-> n = occurrences year years /\ 0 < n)
  /\ year_histogram [2001; 2001; 2003]%Z = [(2001%Z, 2); (2003%Z, 1)]
  /\ (forall E w, (read_years E w).1 = Ok years ->
       chart (analyze_data E w).2
       = Some ((year_histogram years).*1, (year_histogram years).*2)).
Proof.
  split; [|split; [|split; [done|]]];
    [| |by intros E w Hyears; rewrite (analyze_data_chart E w years Hyears)].
  all: unfold year_histogram.
  - apply sorted_nodup_strict.
    + eapply (StronglySorted_fmap fst year_le); [|apply sorted_by_year_sorted]. done.
    + rewrite sorted_by_year_perm. apply Counter_NoDup.
  - intros year n. rewrite sorted_by_year_perm.
    rewrite elem_of_counter by apply Counter_NoDup. rewrite Counter_get.
    case_bool_decide as H0; split.
    + done.
    + intros [-> ?]. lia.
    + intros [= <-]. split; [done | lia].
    + by intros [-> _].
Qed.

(** ** What the stateful functions add to the world *)

Section EffectLemmas.

Context (E : environment).

Lemma requests_get_effect (r : request) (w : world) :
  requests_get E r w = (Ok (send E r), apply_effect (call_effect r) w).
Proof.
  unfold requests_get. f_equal. destruct w; unfold apply_effect, set_calls; simpl.
  by rewrite app_nil_r, Nat.add_0_r.
Qed.

Lemma logging_effect (entry : log_entry) (w : world) :
  logging entry w = (Ok tt, apply_effect (log_effect entry) w).
Proof.
  unfold logging. f_equal. destruct w; unfold apply_effect, set_log_file; simpl.
  by rewrite app_nil_r, Nat.add_0_r.
Qed.

Lemma write_file_effect (path : str) (data : list N) (w : world) :
  write_file path data w = (Ok tt, apply_effect (file_effect path data) w).
Proof.
  unfold write_file. f_equal. destruct w; unfold apply_effect, set_img_files; simpl.
  by rewrite !app_nil_r, Nat.add_0_r.
Qed.

Lemma random_sleep_effect (w : world) :
  random_sleep w = (Ok tt, apply_effect sleep_effect w).
Proof.
  unfold random_sleep. f_equal. destruct w; unfold apply_effect, set_sleeps; simpl.
  by rewrite !app_nil_r, Nat.add_1_r.
Qed.

#[local] Arguments apply_effect : simpl never.
#[local] Arguments logging : simpl never.
#[local] Arguments write_file : simpl never.
#[local] Arguments random_sleep : simpl never.
#[local] Arguments requests_get : simpl never.
#[local] Arguments write_to_csv : simpl never.

Lemma write_to_img_effect (movie_posters : list (option str * option str)) (w : world) :
  write_to_img E movie_posters w = (Ok tt, apply_effect (posters_effect E movie_posters) w).
Proof.
  revert w; induction movie_posters as [|[name poster_url] rest IH]; intros w.
  - cbn. by rewrite apply_no_effect.
  - cbn. unfold io_bind at 1 2. rewrite requests_get_effect.
    unfold poster_effect, fetch, poster_request; cbn.
    rewrite !apply_effect_seq.
    destruct (and_then _ _) as [e|response]; cbn.
    + by rewrite logging_effect, IH.
    + by rewrite write_file_effect, IH.
Qed.

Lemma handle_one_page_effect (page : Z) (w : world) :
  handle_one_page E page w = ((page_effect E page).1, apply_effect (page_effect E page).2 w).
Proof.
  unfold handle_one_page, get_soup, page_effect, fetch.
  unfold io_bind at 1 2. rewrite requests_get_effect. fold (page_request page).
  destruct (and_then (send E (page_request page)) raise_for_status) as [e|response]; cbn.
  - unfold io_bind, io_ret. by rewrite logging_effect, apply_effect_seq.
  - unfold io_bind, io_ret, extract, io_lift.
    destruct (get_chinese_items (parsed response)) as [chinese_items|x]; cbn; [|done].
    destruct (get_movie_infos chinese_items) as [movie_infos|x]; cbn; [|done].
    destruct (get_movie_posters chinese_items) as [movie_posters|x]; cbn; [|done].
    rewrite write_to_csv_effect, write_to_img_effect, logging_effect.
    by rewrite !apply_effect_seq.
Qed.

Lemma for_pages_effect (pages : list Z) (w : world) :
  for_pages E pages w = ((pages_effect E pages).1, apply_effect (pages_effect E pages).2 w).
Proof.
  revert w; induction pages as [|page rest IH]; intros w; cbn.
  - unfold io_ret. by rewrite apply_no_effect.
  - unfold io_bind at 1. rewrite handle_one_page_effect.
    destruct (page_effect E page) as [[[]|x] e]; cbn; [|done].
    unfold io_bind. rewrite random_sleep_effect, IH.
    destruct (pages_effect E rest) as [r e']; cbn.
    by rewrite !apply_effect_seq.
Qed.

End EffectLemmas.

(** ** The requests of a run (lines 23-34, 48-63, 213-215) *)

Section Requests.

Context (E : environment).

Lemma get_params_start (page : Z) :
  get_params page !! lit "start" = Some (page * 25)%Z.
Proof. unfold get_params. apply lookup_singleton_eq. Qed.

Lemma offsets_app (cs1 cs2 : list request) :
  offsets (cs1 ++ cs2) = offsets cs1 ++ offsets cs2.
Proof. apply omap_app. Qed.

Lemma posters_effect_offsets (movie_posters : list (option str * option str)) :
  offsets (e_calls (posters_effect E movie_posters)) = [].
Proof.
  induction movie_posters as [|poster rest IH]; [done|].
  cbn [posters_effect effect_seq e_calls]. rewrite offsets_app, IH.
  unfold poster_effect. by destruct (fetch E _).
Qed.

Lemma page_effect_offsets (page : Z) :
  offsets (e_calls (page_effect E page).2) = [(page * 25)%Z].
Proof.
  unfold page_effect.
  destruct (fetch E (page_request page)) as [e|response].
  - cbn. by rewrite get_params_start.
  - destruct (extract (parsed response)) as [[[chinese_items movie_infos] movie_posters]|x].
    + cbn [snd effect_seq e_calls call_effect rows_effect log_effect].
      rewrite !offsets_app, posters_effect_offsets. cbn. by rewrite get_params_start.
    + cbn. by rewrite get_params_start.
Qed.

Lemma pages_effect_offsets (pages : list Z) :
  exists j, j <= length pages
    /\ offsets (e_calls (pages_effect E pages).2) = (fun page => page * 25)%Z <$> take j pages
    /\ ((pages_effect E pages).1 = Ok tt -> j = length pages).
Proof.
  induction pages as [|page rest (j & Hj & Hoff & Hok)].
  - exists 0. done.
  - cbn [pages_effect]. pose proof (page_effect_offsets page) as Hpage.
    destruct (page_effect E page) as [[[]|x] e]; cbn [snd] in Hpage.
    + destruct (pages_effect E rest) as [r e']. exists (S j).
      cbn [fst snd effect_seq e_calls sleep_effect] in *.
      rewrite !offsets_app, Hpage, Hoff. cbn.
      split; [lia|]. split; [done|]. intros ?. f_equal. auto.
    + exists 1. cbn [fst snd]. rewrite Hpage. split; [simpl; lia|]. split; [|done].
      cbn. by rewrite take_0.
Qed.

Lemma new_calls_apply (e : effect) (w : world) :
  new_calls w (apply_effect e w) = e_calls e.
Proof. unfold new_calls. cbn. by rewrite drop_app_length. Qed.

End Requests.

Lemma main_calls (E : environment) (w : world) :
  calls (main E w).2 = calls (for_pages E (seqZ 0 10) (write_csv_header w).2).2.
Proof.
  unfold main, io_bind. cbn [write_csv_header snd].
  destruct (for_pages E (seqZ 0 10) _) as [[[]|x] w']; [|done].
  unfold analyze_data, io_bind, read_years.
  destruct (csv_file w') as [[|header data]|]; try done.
  cbn. by destruct (parse_years E data).
Qed.

(** C8.  The request built for a page carries [start = page * 25], it is
    the request [get_soup] sends, and the loop over the pages 0 to 9 sends
    one such request per page it reaches, in order: all ten when no page
    raises.  These are all the calls of [main]. *)
Theorem start_is_page_times_25 (E : environment) (w : world) :
  (forall page, get_params page !! lit "start" = Some (page * 25)%Z)
  /\ (forall page, new_calls w (get_soup E page w).2
                   = [Request (Some base_url) (get_params page) get_headers])
  /\ (exists j, j <= 10
       /\ offsets (new_calls w (for_pages E (seqZ 0 10) w).2)
          = (fun page => page * 25)%Z <$> take j (seqZ 0 10)
       /\ ((for_pages E (seqZ 0 10) w).1 = Ok tt -> j = 10))
  /\ (exists j, j <= 10
       /\ offsets (new_calls w (main E w).2)
          = (fun page => page * 25)%Z <$> take j (seqZ 0 10)
       /\ ((main E w).1 = Ok tt -> j = 10)).
Proof.
  split; [apply get_params_start|]. split; [|split].
  - intros page. unfold get_soup, io_bind, requests_get.
    destruct (and_then _ _); unfold new_calls; cbn; by rewrite drop_app_length.
  - rewrite for_pages_effect. cbn [fst snd]. rewrite new_calls_apply.
    apply (pages_effect_offsets E (seqZ 0 10)).
  - unfold new_calls. rewrite main_calls.
    rewrite for_pages_effect. cbn [snd].
    change (calls (apply_effect ?e ?w1)) with (calls w1 ++ e_calls e).
    cbn [write_csv_header snd set_csv_file calls]. rewrite drop_app_length.
    destruct (pages_effect_offsets E (seqZ 0 10)) as (j & Hj & Hoff & Hall).
    exists j. split; [done|]. split; [done|]. intros Hmain. apply Hall.
    unfold main, io_bind in Hmain. cbn [write_csv_header] in Hmain.
    rewrite for_pages_effect in Hmain.
    by destruct (pages_effect E (seqZ 0 10)) as [[[]|x] e].
Qed.

Lemma start_is_page_times_25_witness :
  offsets (new_calls Sample.empty_world
             (for_pages (Sample.server 200 Sample.soup) (seqZ 0 10) Sample.empty_world).2)
  = [0; 25; 50; 75; 100; 125; 150; 175; 200; 225]%Z.
Proof.
  destruct (start_is_page_times_25 (Sample.server 200 Sample.soup) Sample.empty_world)
    as (_ & _ & (j & _ & Hoffsets & Hall) & _).
  rewrite Hoffsets, Hall; [reflexivity | vm_compute; reflexivity].
Defined.

(** ** A page that cannot be fetched (lines 57-63, 160-162, 213-215) *)

Section Isolation.

Context (E : environment).

Lemma fetch_fails_inl (page : Z) :
  fetch_fails E page -> exists e, fetch E (page_request page) = inl e.
Proof.
  unfold fetch_fails, fetch, send, page_request; cbn.
  destruct (net E base_url (get_params page) get_headers) as [response|]; [|by eauto].
  intros Hstatus. unfold and_then, raise_for_status.
  destruct (400 <=? status_code response)%Z eqn:H1; [|lia].
  destruct (status_code response <? 600)%Z eqn:H2; [|lia].
  cbn. eauto.
Qed.

Lemma persisted_apply_effect (e : effect) (w1 w2 : world) :
  persisted w1 = persisted w2 ->
  persisted (apply_effect e w1) = persisted (apply_effect e w2).
Proof. unfold persisted. cbn. by intros [= -> ->]. Qed.

Lemma for_pages_persisted (pages : list Z) (w1 w2 : world) :
  persisted w1 = persisted w2 ->
  (for_pages E pages w1).1 = (for_pages E pages w2).1
  /\ persisted (for_pages E pages w1).2 = persisted (for_pages E pages w2).2.
Proof.
  intros Hw. rewrite !for_pages_effect. cbn [fst snd].
  split; [done|]. by apply persisted_apply_effect.
Qed.

Lemma failed_page_effect (page : Z) (e : request_exception) :
  fetch E (page_request page) = inl e ->
  page_effect E page
  = (Ok tt, effect_seq (call_effect (page_request page)) (log_effect (RequestFailed page e))).
Proof. unfold page_effect. by intros ->. Qed.

Lemma for_pages_cons (page : Z) (rest : list Z) (w : world) :
  for_pages E (page :: rest) w
  = match page_effect E page with
    | (Ok _, e) => for_pages E rest (apply_effect sleep_effect (apply_effect e w))
    | (Raise x, e) => (Raise x, apply_effect e w)
    end.
Proof.
  cbn [for_pages]. unfold io_bind. rewrite handle_one_page_effect.
  destruct (page_effect E page) as [[[]|x] e]; cbn [fst snd]; [|done].
  by rewrite random_sleep_effect.
Qed.

Lemma for_pages_skip_failed (before after : list Z) (page : Z) (w : world) :
  fetch_fails E page ->
  (for_pages E (before ++ page :: after) w).1 = (for_pages E (before ++ after) w).1
  /\ persisted (for_pages E (before ++ page :: after) w).2
     = persisted (for_pages E (before ++ after) w).2.
Proof.
  intros [e He]%fetch_fails_inl. revert w.
  induction before as [|p before IH]; intros w.
  - cbn [app]. rewrite for_pages_cons, (failed_page_effect _ _ He).
    apply for_pages_persisted. unfold persisted. cbn.
    unfold save_imgs. cbn. by destruct (csv_file w).
  - cbn [app]. rewrite !for_pages_cons.
    destruct (page_effect E p) as [[[]|x] e']; [|done]. apply IH.
Qed.

End Isolation.

(** C5 (amended).  When a page cannot be fetched, that is when no response
    arrives or the response has a 4xx or 5xx status, [handle_one_page] logs
    the failure with the page number, writes no row and no image and raises
    nothing; the loop over the pages 0 to 9 then ends as it would without
    that page, with the same result and the same files; and no offset is
    requested twice, so the page is not tried again. *)
Theorem failed_fetch_is_isolated (E : environment) (page : Z) :
  fetch_fails E page ->
  (0 <= page < 10)%Z ->
  (forall w, exists e,
      handle_one_page E page w
      = (Ok tt, set_log_file (log_file w ++ [RequestFailed page e])
                  (set_calls (calls w ++ [page_request page]) w))
      /\ persisted (handle_one_page E page w).2 = persisted w)
  /\ (forall w,
       let run := for_pages E (seqZ 0 10) w in
       let others := for_pages E (seqZ 0 page ++ seqZ (page + 1) (9 - page)) w in
       run.1 = others.1
       /\ csv_file run.2 = csv_file others.2
       /\ img_files run.2 = img_files others.2)
  /\ (forall w, NoDup (offsets (new_calls w (for_pages E (seqZ 0 10) w).2))).
Proof.
  intros Hfails Hpage. split; [|split].
  - intros w. destruct (fetch_fails_inl E page Hfails) as [e He]. exists e.
    rewrite handle_one_page_effect, (failed_page_effect _ _ _ He). cbn [fst snd].
    split; [|done].
    f_equal. destruct w. unfold apply_effect, set_log_file, set_calls, save_imgs. cbn.
    by rewrite Nat.add_0_r.
  - intros w run others. subst run others.
    replace (seqZ 0 10) with (seqZ 0 page ++ page :: seqZ (page + 1) (9 - page)).
    + destruct (for_pages_skip_failed E (seqZ 0 page) (seqZ (page + 1) (9 - page)) page w
                  Hfails) as [Hr Hp].
      unfold persisted in Hp. injection Hp as Hcsv Himg. done.
    + replace 10%Z with (page + (1 + (9 - page)))%Z by lia.
      rewrite seqZ_app by lia. f_equal.
      rewrite (seqZ_cons (0 + page)) by lia. f_equal. f_equal; lia.
  - intros w. rewrite for_pages_effect. cbn [snd]. rewrite new_calls_apply.
    destruct (pages_effect_offsets E (seqZ 0 10)) as (j & _ & -> & _).
    apply NoDup_fmap_2; [intros x y; lia|].
    eapply sublist_NoDup; [apply NoDup_seqZ | apply sublist_take].
Qed.

Lemma failed_fetch_is_isolated_witness :
  fetch_fails (Sample.server_down_at 75 Sample.soup) 3
  /\ exists e,
       handle_one_page (Sample.server_down_at 75 Sample.soup) 3 Sample.empty_world
       = (Ok tt, set_log_file (log_file Sample.empty_world ++ [RequestFailed 3 e])
                   (set_calls (calls Sample.empty_world ++ [page_request 3])
                      Sample.empty_world))
       /\ persisted
            (handle_one_page (Sample.server_down_at 75 Sample.soup) 3 Sample.empty_world).2
          = persisted Sample.empty_world.
Proof.
  assert (fetch_fails (Sample.server_down_at 75 Sample.soup) 3) as Hfails
    by (vm_compute; exact I).
  split; [exact Hfails|].
  apply (failed_fetch_is_isolated (Sample.server_down_at 75 Sample.soup) 3 Hfails); lia.
Defined.

(** With page 3 down, the other nine pages leave their rows: two domestic
    entries each. *)
Example nine_pages_persisted :
  let out := for_pages (Sample.server_down_at 75 Sample.soup) (seqZ 0 10) Sample.empty_world in
  out.1 = Ok tt
  /\ (length <$> csv_file out.2) = Some 18
  /\ omap (fun entry => match entry with RequestFailed page _ => Some page | _ => None end)
          (log_file out.2) = [3%Z]
  /\ sleeps out.2 = 10.
Proof. cbv zeta. repeat split; vm_compute; reflexivity. Qed.

(** C5, as the specification words it, counts every status outside 2xx as
    a failed fetch.  [raise_for_status] raises for 4xx and 5xx only: a
    response with status 300 is parsed and processed like any other, its
    rows and images are written, and no failure is logged. *)
Lemma status_300_is_processed :
  let E := Sample.server 300 Sample.soup in
  let out := handle_one_page E 3 Sample.empty_world in
  net E base_url (get_params 3) get_headers = Some (Response 300 [] Sample.soup)
  /\ ~ (200 <= 300 < 300)%Z
  /\ out.1 = Ok tt
  /\ csv_file out.2
     = Some [[lit "霸王别姬"; lit "1993"; lit "https://img.example/p1.jpg"];
             [lit "大话西游"; lit "1995"; lit "https://img.example/p3.jpg"]]
  /\ img_files out.2 !! img_path (Some (lit "霸王别姬")) = Some []
  /\ log_file out.2 = [PageDone 4 2].
Proof.
  cbv zeta. split; [reflexivity|]. split; [lia|].
  repeat split; vm_compute; reflexivity.
Qed.

(** ** Reading the years back (lines 182-185) *)

Section RoundTrip.

Context (E : environment).












End RoundTrip.




Lemma year_histogram_counts_sorted_witness :
  chart (analyze_data (Sample.server 200 Sample.soup)
           (header_then_append
              [([(lit "A", lit "2001"); (lit "B", lit "2001"); (lit "C", lit "2003")],
                [(None, None); (None, None); (None, None)])]
              Sample.empty_world)).2
  = Some ([2001; 2003]%Z, [2; 1]).
Proof.
  destruct (year_histogram_counts_sorted [2001; 2001; 2003]%Z) as (_ & _ & Hex & Hchart).
  rewrite Hchart; [by rewrite Hex | vm_compute; reflexivity].
Defined.

(** A year that is no integer literal stops the analyzer. *)
Example garbage_year_raises :
  (read_years (Sample.server 200 Sample.soup)
     (header_then_append [([(lit "A", lit "abcd")], [(None, None)])] Sample.empty_world)).1
  = Raise ValueError.
Proof. vm_compute; reflexivity. Qed.

(** A whole run against a server that answers every page with [Sample.soup]:
    two domestic entries per page, twenty rows, and the chart of two years. *)
Example main_run :
  let out := main (Sample.server 200 Sample.soup) Sample.empty_world in
  out.1 = Ok tt
  /\ (length <$> csv_file out.2) = Some 21
  /\ chart out.2 = Some ([1993; 1995]%Z, [10; 10])
  /\ sleeps out.2 = 10.
Proof. cbv zeta. repeat split; vm_compute; reflexivity. Qed.

(** * Further properties of the stateful functions *)

(** ** What an effect leaves alone *)

Lemma new_log_apply (e : effect) (w : world) : new_log w (apply_effect e w) = e_log e.
Proof. unfold new_log. cbn. by rewrite drop_app_length. Qed.


Lemma save_imgs_dom (imgs : list (str * list N)) (m : gmap str (list N)) :
  dom m ⊆ dom (save_imgs imgs m).
Proof.
  revert m; induction imgs as [|[path data] imgs IH]; intros m; cbn; [done|].
  etrans; [|apply IH]. apply dom_insert_subseteq.
Qed.

Lemma apply_effect_only_adds (e : effect) (w : world) :
  default [] (csv_file w) `prefix_of` default [] (csv_file (apply_effect e w))
  /\ (is_Some (csv_file w) -> is_Some (csv_file (apply_effect e w)))
  /\ dom (img_files w) ⊆ dom (img_files (apply_effect e w))
  /\ log_file w `prefix_of` log_file (apply_effect e w)
  /\ calls w `prefix_of` calls (apply_effect e w)
  /\ sleeps w <= sleeps (apply_effect e w)
  /\ chart (apply_effect e w) = chart w.
Proof.
  cbn. split; [|split; [|split; [|split; [|split; [|split]]]]].
  - destruct (e_csv e) as [rows|]; cbn; [by apply prefix_app_r | done].
  - destruct (e_csv e); cbn; eauto.
  - apply save_imgs_dom.
  - by apply prefix_app_r.
  - by apply prefix_app_r.
  - lia.
  - done.
Qed.

(** X1.  The loop over any pages only adds to the world: the rows already
    in douban.csv stay, in place, in front of the new ones, an existing file
    stays a file, every image path stays, the log and the trace of calls are
    extended, and the chart is not touched. *)
Theorem for_pages_only_adds (E : environment) (pages : list Z) (w : world) :
  let w' := (for_pages E pages w).2 in
  default [] (csv_file w) `prefix_of` default [] (csv_file w')
  /\ (is_Some (csv_file w) -> is_Some (csv_file w'))
  /\ dom (img_files w) ⊆ dom (img_files w')
  /\ log_file w `prefix_of` log_file w'
  /\ calls w `prefix_of` calls w'
  /\ sleeps w <= sleeps w'
  /\ chart w' = chart w.
Proof. cbv zeta. rewrite for_pages_effect. apply apply_effect_only_adds. Qed.

Lemma for_pages_only_adds_witness :
  is_Some (csv_file (for_pages (Sample.server 200 Sample.soup) [0%Z; 1%Z]
                       (set_csv_file (Some [csv_header]) Sample.empty_world)).2).
Proof.
  apply (for_pages_only_adds (Sample.server 200 Sample.soup) [0%Z; 1%Z]
           (set_csv_file (Some [csv_header]) Sample.empty_world)).
  by eexists.
Defined.


(** ** Progress of the loop (lines 154-168, 171-174, 213-215) *)

Section Progress.

Context (E : environment).

Lemma posters_effect_fields (movie_posters : list (option str * option str)) :
  e_csv (posters_effect E movie_posters) = None
  /\ e_sleeps (posters_effect E movie_posters) = 0
  /\ omap entry_page (e_log (posters_effect E movie_posters)) = []
  /\ e_calls (posters_effect E movie_posters) = poster_request <$> movie_posters.*2.
Proof.
  induction movie_posters as [|poster rest (Hcsv & Hsleeps & Hlog & Hcalls)]; [done|].
  cbn [posters_effect effect_seq e_csv e_sleeps e_log e_calls].
  rewrite Hcsv, Hsleeps, Hcalls, omap_app, Hlog.
  unfold poster_effect. by destruct (fetch E _).
Qed.

Lemma page_effect_raise (page : Z) (x : exn) :
  (page_effect E page).1 = Raise x ->
  page_effect E page = (Raise x, call_effect (page_request page)).
Proof.
  unfold page_effect. destruct (fetch E (page_request page)) as [e|response]; [done|].
  destruct (extract (parsed response)) as [[[? ?] ?]|y]; [done|]. by intros [= ->].
Qed.

Lemma page_effect_ok (page : Z) (e : effect) :
  page_effect E page = (Ok tt, e) ->
  e_sleeps e = 0
  /\ omap entry_page (e_log e) = [page]
  /\ offsets (e_calls e) = [(page * 25)%Z].
Proof.
  intros He. pose proof (page_effect_offsets E page) as Hoff. rewrite He in Hoff.
  split; [|split; [|done]]; revert He; unfold page_effect.
  all: destruct (fetch E (page_request page)) as [x|response];
    [by intros [= <-]|].
  all: destruct (extract (parsed response)) as [[[items infos] posters]|y]; [|done].
  all: intros [= <-]; destruct (posters_effect_fields posters) as (_ & Hsleeps & Hlog & _).
  - cbn. by rewrite Hsleeps.
  - cbn [effect_seq e_log call_effect rows_effect log_effect app].
    rewrite omap_app, Hlog. cbn. f_equal. f_equal. lia.
Qed.

Lemma pages_effect_progress (pages : list Z) :
  exists j, j <= length pages
    /\ e_sleeps (pages_effect E pages).2 = j
    /\ omap entry_page (e_log (pages_effect E pages).2) = take j pages
    /\ ((pages_effect E pages).1 = Ok tt -> j = length pages).
Proof.
  induction pages as [|page rest (j & Hj & Hsleeps & Hlog & Hall)].
  - by exists 0.
  - cbn [pages_effect].
    destruct (page_effect E page) as [[[]|x] e] eqn:Hpage.
    + destruct (page_effect_ok _ _ Hpage) as (Hs & Hl & _).
      destruct (pages_effect E rest) as [r e']. exists (S j).
      cbn [fst snd effect_seq e_sleeps e_log sleep_effect] in *.
      rewrite !omap_app, Hl, Hlog, Hs, Hsleeps. cbn.
      split; [lia|]. split; [done|]. split; [done|]. intros ?. f_equal. auto.
    + apply (f_equal fst) in Hpage as Hx. cbn in Hx.
      rewrite (page_effect_raise _ _ Hx) in Hpage. injection Hpage as <-.
      exists 0. cbn. split; [lia|]. done.
Qed.

Lemma for_pages_raise (before after : list Z) (page : Z) (x : exn) (w : world) :
  (pages_effect E before).1 = Ok tt ->
  (page_effect E page).1 = Raise x ->
  for_pages E (before ++ page :: after) w
  = (Raise x, apply_effect (call_effect (page_request page)) (for_pages E before w).2).
Proof.
  intros Hbefore Hpage. revert w Hbefore.
  induction before as [|p before IH]; intros w Hbefore.
  - cbn [app]. by rewrite for_pages_cons, (page_effect_raise _ _ Hpage).
  - cbn [app]. rewrite !for_pages_cons. cbn [pages_effect] in Hbefore.
    destruct (page_effect E p) as [[[]|y] e]; [|done].
    apply IH. by destruct (pages_effect E before).
Qed.

End Progress.

(** X3.  The loop sleeps once after every page it completes, a page whose
    fetch failed included, and each completed page leaves exactly one
    page-level line in the log, in page order; when the loop returns, these
    are all the pages. *)
Theorem for_pages_one_sleep_one_line_per_page (E : environment) (pages : list Z)
    (w : world) :
  let out := for_pages E pages w in
  exists j, j <= length pages
    /\ sleeps out.2 = sleeps w + j
    /\ omap entry_page (new_log w out.2) = take j pages
    /\ (out.1 = Ok tt -> j = length pages).
Proof.
  cbv zeta. rewrite for_pages_effect. cbn [fst snd]. rewrite new_log_apply.
  destruct (pages_effect_progress E pages) as (j & Hj & Hsleeps & Hlog & Hall).
  exists j. cbn. by rewrite Hsleeps.
Qed.

Lemma for_pages_one_sleep_one_line_per_page_witness :
  sleeps (for_pages (Sample.server_down_at 75 Sample.soup) (seqZ 0 10)
            Sample.empty_world).2 = 10.
Proof.
  destruct (for_pages_one_sleep_one_line_per_page (Sample.server_down_at 75 Sample.soup)
              (seqZ 0 10) Sample.empty_world) as (j & _ & Hsleeps & _ & Hall).
  rewrite Hsleeps, Hall; [reflexivity | vm_compute; reflexivity].
Defined.

(** X4.  When a page raises, the loop raises the same exception at once:
    the later pages are not requested, no sleep follows, and the page
    leaves nothing but the request it sent: the files and the log are as
    the earlier pages left them. *)
Theorem for_pages_stops_at_raising_page (E : environment) (before after : list Z)
    (page : Z) (x : exn) (w : world) :
  (for_pages E before w).1 = Ok tt ->
  (handle_one_page E page w).1 = Raise x ->
  let reached := (for_pages E before w).2 in
  let out := for_pages E (before ++ page :: after) w in
  out.1 = Raise x
  /\ calls out.2 = calls reached ++ [page_request page]
  /\ persisted out.2 = persisted reached
  /\ log_file out.2 = log_file reached
  /\ sleeps out.2 = sleeps reached.
Proof.
  intros Hbefore Hpage. cbv zeta.
  rewrite for_pages_effect in Hbefore. rewrite handle_one_page_effect in Hpage.
  rewrite (for_pages_raise E before after page x w Hbefore Hpage). cbn.
  by rewrite app_nil_r, Nat.add_0_r.
Qed.

Lemma for_pages_stops_at_raising_page_witness :
  (for_pages (Fixture.server_with_page_at 50 Fixture.broken_soup Sample.soup)
     (seqZ 0 10) Sample.empty_world).1 = Raise IndexError.
Proof.
  apply (for_pages_stops_at_raising_page
           (Fixture.server_with_page_at 50 Fixture.broken_soup Sample.soup)
           [0; 1]%Z [3; 4; 5; 6; 7; 8; 9]%Z 2%Z IndexError Sample.empty_world);
    vm_compute; reflexivity.
Defined.

(** ** The analyzer (lines 177-197) *)

Section Analyzer.

Context (E : environment).

Lemma analyze_data_cases (w : world) :
  analyze_data E w
  = match csv_file w with
    | None => (Raise FileNotFoundError, w)
    | Some [] => (Raise StopIteration, w)
    | Some (_ :: data) =>
      match parse_years E data with
      | Ok years =>
        (Ok tt, set_chart (Some ((year_histogram years).*1, (year_histogram years).*2)) w)
      | Raise x => (Raise x, w)
      end
    end.
Proof.
  unfold analyze_data, io_bind, read_years.
  destruct (csv_file w) as [[|header data]|]; first [done | by destruct (parse_years E data)].
Qed.


Lemma parse_years_step (row : list str) (data : list (list str)) :
  parse_years E (row :: data)
  = match row !! 1 with
    | None => Raise IndexError
    | Some field =>
      match py_int E field, parse_years E data with
      | Ok z, Ok zs => Ok (z :: zs)
      | Ok _, Raise x => Raise x
      | Raise x, _ => Raise x
      end
    end.
Proof.
  cbn [parse_years]. unfold index. destruct (row !! 1) as [field|]; [|done]. cbn.
  destruct (py_int E field); cbn; [|done]. by destruct (parse_years E data).
Qed.


Lemma parse_years_returns_length (data : list (list str)) (years : list Z) :
  parse_years E data = Ok years -> length years = length data.
Proof.
  revert years; induction data as [|row data IH]; intros years.
  - by intros [= <-].
  - rewrite parse_years_step. destruct (row !! 1) as [field|]; [|done].
    destruct (py_int E field) as [z|]; [|done].
    destruct (parse_years E data) as [zs|]; [|done].
    intros [= <-]. cbn. f_equal. by apply IH.
Qed.


End Analyzer.



(** X6.  The first row of the file is skipped unread: two files that
    differ in their first row only give the same result and the same chart;
    and a file that has a first row and nothing else gives the empty chart
    and no exception. *)
Theorem analyze_data_skips_first_row (E : environment) (w1 w2 : world)
    (row1 row2 : list str) (data : list (list str)) :
  csv_file w1 = Some (row1 :: data) ->
  csv_file w2 = Some (row2 :: data) ->
  (analyze_data E w1).1 = (analyze_data E w2).1
  /\ ((analyze_data E w1).1 = Ok tt ->
      chart (analyze_data E w1).2 = chart (analyze_data E w2).2)
  /\ (data = [] -> analyze_data E w1 = (Ok tt, set_chart (Some ([], [])) w1)).
Proof.
  intros H1 H2. rewrite !analyze_data_cases, H1, H2.
  split; [|split].
  - by destruct (parse_years E data).
  - by destruct (parse_years E data).
  - by intros ->.
Qed.

Lemma analyze_data_skips_first_row_witness :
  analyze_data (Sample.server 200 Sample.soup)
    (set_csv_file (Some [[lit "no header"]]) Sample.empty_world)
  = (Ok tt, set_chart (Some ([], []))
              (set_csv_file (Some [[lit "no header"]]) Sample.empty_world)).
Proof.
  apply (analyze_data_skips_first_row (Sample.server 200 Sample.soup)
           (set_csv_file (Some [[lit "no header"]]) Sample.empty_world)
           (set_csv_file (Some [csv_header]) Sample.empty_world)
           [lit "no header"] csv_header []); reflexivity.
Defined.

(** ** The histogram once more (lines 186-189) *)

Lemma counter_incr_sum (year : Z) (counter : list (Z * nat)) :
  sum_list (counter_incr year counter).*2 = S (sum_list counter.*2).
Proof.
  induction counter as [|[k n] counter IH]; [done|].
  cbn [counter_incr]. destruct (k =? year)%Z; [done|].
  rewrite !fmap_cons. cbn [snd sum_list_with id]. rewrite IH. cbn. lia.
Qed.

Lemma counter_incr_positive (year : Z) (counter : list (Z * nat)) :
  Forall (fun n => 0 < n) counter.*2 ->
  Forall (fun n => 0 < n) (counter_incr year counter).*2.
Proof.
  induction counter as [|[k n] counter IH]; cbn [counter_incr].
  - intros _. repeat constructor.
  - rewrite fmap_cons. intros [Hn Hrest]%Forall_cons.
    destruct (k =? year)%Z; rewrite fmap_cons; constructor; cbn in *; auto with lia.
Qed.

Lemma Counter_sum (years : list Z) : sum_list (Counter years).*2 = length years.
Proof.
  induction years as [|year years IH] using rev_ind; [done|].
  rewrite Counter_snoc, counter_incr_sum, IH, length_app. cbn. lia.
Qed.

Lemma Counter_positive (years : list Z) : Forall (fun n => 0 < n) (Counter years).*2.
Proof.
  induction years as [|year years IH] using rev_ind; [constructor|].
  rewrite Counter_snoc. by apply counter_incr_positive.
Qed.

Lemma sum_list_positive (l : list nat) : Forall (fun n => 0 < n) l -> length l <= sum_list l.
Proof. induction 1 as [|n l Hn _ IH]; cbn; lia. Qed.

Lemma occurrences_perm (year : Z) (years years' : list Z) :
  years ≡ₚ years' -> occurrences year years = occurrences year years'.
Proof.
  unfold occurrences. induction 1 as [|y l l' _ IH|y1 y2 l|l l' l'' _ IH1 _ IH2]; cbn.
  - done.
  - destruct (year =? y)%Z; cbn; by rewrite IH.
  - by destruct (year =? y1)%Z, (year =? y2)%Z.
  - by rewrite IH1.
Qed.

Lemma elem_of_year_histogram (years : list Z) (year : Z) (n : nat) :
  (year, n) ∈ year_histogram years <-> n = occurrences year years /\ 0 < n.
Proof.
  unfold year_histogram. rewrite sorted_by_year_perm.
  rewrite elem_of_counter by apply Counter_NoDup. rewrite Counter_get.
  case_bool_decide as H0; split.
  - done.
  - intros [-> ?]. lia.
  - intros [= <-]. split; [done | lia].
  - by intros [-> _].
Qed.

Lemma year_histogram_NoDup (years : list Z) : NoDup (year_histogram years).
Proof.
  apply (NoDup_fmap_1 fst). unfold year_histogram.
  rewrite sorted_by_year_perm. apply Counter_NoDup.
Qed.

(** X7.  In the histogram every record is counted exactly once: the counts
    add up to the number of years read, no count is zero, and there are no
    more entries than records. *)
Theorem year_histogram_counts_every_record (years : list Z) :
  sum_list (year_histogram years).*2 = length years
  /\ Forall (fun n => 0 < n) (year_histogram years).*2
  /\ length (year_histogram years) <= length years
  /\ length (year_histogram years).*1 = length (year_histogram years).*2.
Proof.
  assert (sum_list (year_histogram years).*2 = length years) as Hsum.
  { unfold year_histogram. rewrite sorted_by_year_perm. apply Counter_sum. }
  assert (Forall (fun n => 0 < n) (year_histogram years).*2) as Hpos.
  { unfold year_histogram. rewrite sorted_by_year_perm. apply Counter_positive. }
  split; [done|]. split; [done|]. split; [|by rewrite !length_fmap].
  rewrite <- Hsum, <- (length_fmap snd). by apply sum_list_positive.
Qed.

(** X8.  The histogram does not depend on the order of the rows: years
    read in another order give the same two plotted series. *)
Theorem year_histogram_order_independent (years years' : list Z) :
  years ≡ₚ years' -> year_histogram years = year_histogram years'.
Proof.
  intros Hperm.
  assert (forall year n, (year, n) ∈ year_histogram years
                         <-> (year, n) ∈ year_histogram years') as Hsame.
  { intros year n. by rewrite !elem_of_year_histogram, (occurrences_perm _ _ _ Hperm). }
  apply (StronglySorted_unique_strong year_le).
  - intros [k1 n1] [k2 n2] H1 H2 Hle1 Hle2. unfold year_le in *. cbn in *.
    assert (k1 = k2) as -> by lia.
    apply elem_of_year_histogram in H1 as [-> _].
    apply elem_of_year_histogram in H2 as [-> _].
    by rewrite (occurrences_perm _ _ _ Hperm).
  - apply sorted_by_year_sorted.
  - apply sorted_by_year_sorted.
  - apply NoDup_Permutation; [apply year_histogram_NoDup..|].
    intros [year n]. apply Hsame.
Qed.

Lemma year_histogram_order_independent_witness :
  year_histogram [2003; 2001; 2001]%Z = year_histogram [2001; 2003; 2001]%Z.
Proof.
  apply year_histogram_order_independent. apply Permutation_swap.
Defined.

(** ** The whole run (lines 200-216) *)

Lemma main_unfold (E : environment) (w : world) :
  main E w
  = match pages_effect E (seqZ 0 10) with
    | (Ok _, e) => analyze_data E (apply_effect e (write_csv_header w).2)
    | (Raise x, e) => (Raise x, apply_effect e (write_csv_header w).2)
    end.
Proof.
  unfold main, io_bind. cbn [write_csv_header snd]. rewrite for_pages_effect.
  by destruct (pages_effect E (seqZ 0 10)) as [[[]|x] e].
Qed.

Lemma main_csv_file (E : environment) (w : world) :
  csv_file (main E w).2
  = Some (csv_header :: default [] (e_csv (pages_effect E (seqZ 0 10)).2)).
Proof.
  rewrite main_unfold. destruct (pages_effect E (seqZ 0 10)) as [[[]|x] e]; cbn [snd].
  - rewrite analyze_data_cases.
    assert (csv_file (apply_effect e (write_csv_header w).2)
            = Some (csv_header :: default [] (e_csv e))) as Hfile.
    { cbn. by destruct (e_csv e). }
    rewrite Hfile. by destruct (parse_years E _).
  - cbn. by destruct (e_csv e).
Qed.

(** X9.  [main] starts douban.csv afresh: the file it leaves begins with
    the header row and holds the rows of this run only, whatever the file
    held before, so the result of [main] and the chart it draws do not
    depend on an earlier run. *)
Theorem main_starts_file_afresh (E : environment) (w1 w2 : world) :
  csv_file (main E w1).2 = csv_file (main E w2).2
  /\ (exists rows, csv_file (main E w1).2 = Some (csv_header :: rows))
  /\ (main E w1).1 = (main E w2).1
  /\ ((main E w1).1 = Ok tt -> chart (main E w1).2 = chart (main E w2).2).
Proof.
  split; [by rewrite !main_csv_file|]. split; [rewrite main_csv_file; eauto|].
  rewrite !main_unfold.
  destruct (pages_effect E (seqZ 0 10)) as [[[]|x] e]; cbn [fst snd]; [|done].
  rewrite !analyze_data_cases.
  assert (forall w, csv_file (apply_effect e (write_csv_header w).2)
                    = Some (csv_header :: default [] (e_csv e))) as Hfile.
  { intros w. cbn. by destruct (e_csv e). }
  rewrite !Hfile. by destruct (parse_years E _).
Qed.

Lemma main_starts_file_afresh_witness :
  chart (main (Sample.server 200 Sample.soup)
           (set_csv_file (Some [[lit "old"; lit "1900"]]) Sample.empty_world)).2
  = chart (main (Sample.server 200 Sample.soup) Sample.empty_world).2.
Proof.
  apply (main_starts_file_afresh (Sample.server 200 Sample.soup)
           (set_csv_file (Some [[lit "old"; lit "1900"]]) Sample.empty_world)
           Sample.empty_world).
  vm_compute; reflexivity.
Defined.

(** X10.  When [main] returns, it has slept ten times and the chart is the
    histogram of the years in the file it leaves, one record per row after
    the header; when [main] raises, whether in a page or in the analyzer,
    the chart is the one it found. *)
Theorem main_draws_chart_only_on_success (E : environment) (w : world) :
  ((main E w).1 = Ok tt ->
   sleeps (main E w).2 = sleeps w + 10
   /\ exists header data years,
        csv_file (main E w).2 = Some (header :: data)
        /\ parse_years E data = Ok years
        /\ length years = length data
        /\ chart (main E w).2
           = Some ((year_histogram years).*1, (year_histogram years).*2))
  /\ (forall x, (main E w).1 = Raise x -> chart (main E w).2 = chart w).
Proof.
  rewrite main_unfold.
  destruct (pages_effect_progress E (seqZ 0 10)) as (j & _ & Hsleeps & _ & Hall).
  destruct (pages_effect E (seqZ 0 10)) as [[[]|y] e]; cbn [fst snd] in *.
  - rewrite analyze_data_cases.
    destruct (csv_file (apply_effect e (write_csv_header w).2)) as [[|header data]|]
      eqn:Hfile;
      [split; [done|by intros x [= <-]]| |split; [done|by intros x [= <-]]].
    destruct (parse_years E data) as [years|z] eqn:Hyears.
    + split; [|done]. intros _. cbn [fst snd set_chart csv_file sleeps chart].
      split.
      * cbn. rewrite Hsleeps, (Hall eq_refl). done.
      * exists header, data, years. split; [done|]. split; [done|].
        split; [|done]. by apply parse_years_returns_length in Hyears.
    + split; [done|]. by intros x [= <-].
  - split; [done|]. by intros x [= <-].
Qed.

Lemma main_draws_chart_only_on_success_witness :
  chart (main (Fixture.server_with_page_at 50 Fixture.broken_soup Sample.soup)
           Sample.empty_world).2 = None.
Proof.
  apply (main_draws_chart_only_on_success
           (Fixture.server_with_page_at 50 Fixture.broken_soup Sample.soup)
           Sample.empty_world) with (x := IndexError).
  vm_compute; reflexivity.
Defined.

(** ** Downloading the posters (lines 138-151) *)


Section Posters.

Context (E : environment).





End Posters.




(** X13.  A poster without a link (an [img] without [src]) is never put on
    the network: whatever the server, [write_to_img] on such posters gives
    the same world, writes no file, and logs one refused request each. *)
Theorem posters_without_link_are_not_sent (E1 E2 : environment)
    (movie_posters : list (option str * option str)) (w : world) :
  Forall (fun p => p.2 = None) movie_posters ->
  write_to_img E1 movie_posters w = write_to_img E2 movie_posters w
  /\ img_files (write_to_img E1 movie_posters w).2 = img_files w
  /\ new_log w (write_to_img E1 movie_posters w).2
     = (fun _ => PosterFailed None MissingSchema) <$> movie_posters.
Proof.
  intros Hnone. rewrite !write_to_img_effect. cbn [snd].
  assert (forall E, posters_effect E movie_posters
                    = posters_effect E1 movie_posters
                    /\ e_imgs (posters_effect E movie_posters) = []
                    /\ e_log (posters_effect E movie_posters)
                       = (fun _ => PosterFailed None MissingSchema) <$> movie_posters)
    as Hsame.
  { intros E. induction Hnone as [|[name poster_url] rest Hp _ (IH1 & IH2 & IH3)]; [done|].
    cbn in Hp. subst poster_url. cbn [posters_effect]. rewrite IH1.
    split; [done|]. rewrite <- IH1. cbn. by rewrite IH2, IH3. }
  destruct (Hsame E2) as (-> & _ & _). destruct (Hsame E1) as (_ & Himgs & Hlog).
  split; [done|]. rewrite new_log_apply, Hlog. split; [|done].
  cbn. by rewrite Himgs.
Qed.

Lemma posters_without_link_are_not_sent_witness :
  img_files (write_to_img (Sample.server 200 Sample.soup)
               [(Some (lit "A"), None); (None, None)] Sample.empty_world).2
  = img_files Sample.empty_world.
Proof.
  apply (posters_without_link_are_not_sent (Sample.server 200 Sample.soup)
           (Sample.server 300 Sample.soup)).
  repeat constructor.
Defined.

(** ** A page that is fetched and extracted (lines 154-168) *)




(** ** Appending in batches (lines 125-135, 213-215) *)

Lemma py_zip_app {A B} (xs1 xs2 : list A) (ys1 ys2 : list B) :
  length xs1 = length ys1 ->
  py_zip (xs1 ++ xs2) (ys1 ++ ys2) = py_zip xs1 ys1 ++ py_zip xs2 ys2.
Proof.
  revert ys1; induction xs1 as [|x xs1 IH]; intros [|y ys1]; cbn; try done.
  intros [= Hlen]. f_equal. by apply IH.
Qed.

(** X15.  Two appends in a row write what one append of the concatenated
    lists writes, provided the first pair of lists is aligned (equally
    long); this is how the rows of the pages add up in one file. *)
Theorem write_to_csv_appends_compose (infos1 infos2 : list (str * str))
    (posters1 posters2 : list (option str * option str)) (w : world) :
  length infos1 = length posters1 ->
  io_bind (write_to_csv infos1 posters1) (fun _ => write_to_csv infos2 posters2) w
  = write_to_csv (infos1 ++ infos2) (posters1 ++ posters2) w.
Proof.
  intros Hlen. unfold io_bind. rewrite !write_to_csv_effect.
  rewrite (py_zip_app _ _ _ _ Hlen), fmap_app, <- apply_effect_seq. done.
Qed.

Lemma write_to_csv_appends_compose_witness :
  io_bind (write_to_csv [(lit "A", lit "2001")] [(None, Some (lit "u1"))])
          (fun _ => write_to_csv [(lit "B", lit "2003")] [(None, Some (lit "u2"))])
          Sample.empty_world
  = write_to_csv ([(lit "A", lit "2001")] ++ [(lit "B", lit "2003")])
                 ([(None, Some (lit "u1"))] ++ [(None, Some (lit "u2"))])
                 Sample.empty_world.
Proof. apply write_to_csv_appends_compose. reflexivity. Defined.


(** ** Errors of the extraction (lines 75-115) *)

Section CollectFailure.

Context {A : Type} (f : node -> result A).
Context (loop : list node -> list A -> result (list A)).
Hypothesis loop_cons : forall item rest acc,
  loop (item :: rest) acc =
  match f item with
  | Ok x => loop rest (acc ++ [x])
  | Raise e => Raise e
  end.

Lemma collect_first_failure (items1 items2 : list node) (item : node) (x : exn)
    (acc : list A) :
  Forall (fun item => is_ok (f item) = true) items1 ->
  f item = Raise x ->
  loop (items1 ++ item :: items2) acc = Raise x.
Proof.
  intros H Hitem; revert acc; induction H as [|i items1 Hi _ IH]; intros acc; cbn [app].
  - by rewrite loop_cons, Hitem.
  - rewrite loop_cons. destruct (f i); [apply IH | done].
Qed.

End CollectFailure.

(** X17.  The extraction loops and the filter stop at the first block whose
    lookup fails and raise its exception; the blocks behind it are not
    looked at, and no partial list comes back. *)
Theorem extraction_raises_first_failure (items1 items2 : list node) (item : node)
    (x : exn) :
  (Forall (fun i => is_ok (movie_info i) = true) items1 ->
   movie_info item = Raise x ->
   get_movie_infos (items1 ++ item :: items2) = Raise x)
  /\ (Forall (fun i => is_ok (movie_poster i) = true) items1 ->
      movie_poster item = Raise x ->
      get_movie_posters (items1 ++ item :: items2) = Raise x)
  /\ (Forall (fun i => is_ok (desc_text i) = true) items1 ->
      desc_text item = Raise x ->
      chinese_items_loop (items1 ++ item :: items2) [] = Raise x).
Proof.
  split; [|split].
  - apply (collect_first_failure movie_info). intros i rest acc. cbn.
    by destruct (movie_info i).
  - apply (collect_first_failure movie_poster). intros i rest acc. cbn.
    by destruct (movie_poster i).
  - intros H Hitem. generalize (@nil node).
    induction H as [|i items1 Hi _ IH]; intros acc; cbn [app].
    + by rewrite chinese_items_loop_cons, Hitem.
    + rewrite chinese_items_loop_cons. destruct (desc_text i); [apply IH | done].
Qed.

Lemma extraction_raises_first_failure_witness :
  get_movie_posters ([Sample.farewell] ++ Sample.no_poster :: [Sample.hero])
  = Raise AttributeError.
Proof.
  apply (extraction_raises_first_failure [Sample.farewell] [Sample.hero]
           Sample.no_poster AttributeError).
  - repeat constructor.
  - vm_compute; reflexivity.
Defined.

(** X18.  What the per-block lookups can raise.  The title and year lookup
    raises [AttributeError] for a missing fragment and [IndexError] exactly
    when the fragments are there but the trimmed paragraph text has fewer
    than two lines.  The poster lookup raises only when the [pic] block or
    its [img] is missing, and then [AttributeError]; an [img] without [alt]
    or [src] is no error and yields [None] for that component. *)
Theorem lookup_errors (item : node) :
  (forall x, movie_info item = Raise x -> x = AttributeError \/ x = IndexError)
  /\ (movie_info item = Raise IndexError
      <-> exists hd title text,
            find item (lit "div") (Some (lit "hd")) = Some hd
            /\ find hd (lit "span") (Some (lit "title")) = Some title
            /\ desc_text item = Ok text
            /\ length (splitlines (strip text)) < 2)
  /\ (forall x, desc_text item = Raise x -> x = AttributeError)
  /\ (forall x, movie_poster item = Raise x -> x = AttributeError)
  /\ (forall pic img,
       find item (lit "div") (Some (lit "pic")) = Some pic ->
       find pic (lit "img") None = Some img ->
       movie_poster item = Ok (get img (lit "alt"), get img (lit "src"))).
Proof.
  assert (forall x, desc_text item = Raise x -> x = AttributeError) as Hdesc.
  { intros x. unfold desc_text.
    destruct (find item (lit "div") (Some (lit "bd"))) as [bd|]; cbn; [|by intros [= <-]].
    destruct (find bd (lit "p") None); cbn; [done | by intros [= <-]]. }
  assert (forall text x, year_of_text text = Raise x ->
            x = IndexError /\ length (splitlines (strip text)) < 2) as Hyear.
  { intros text x. unfold year_of_text, index.
    destruct (splitlines (strip text) !! 1) eqn:Hline; cbn; [done|].
    intros [= <-]. split; [done|]. apply lookup_ge_None in Hline. lia. }
  split; [|split; [|split; [done|split]]].
  - intros x. unfold movie_info.
    destruct (find item (lit "div") (Some (lit "hd"))) as [hd|]; cbn;
      [|intros [= <-]; by left].
    destruct (find hd (lit "span") (Some (lit "title"))) as [title|]; cbn;
      [|intros [= <-]; by left].
    destruct (desc_text item) as [text|y] eqn:Htext; cbn.
    + destruct (year_of_text text) as [year|y] eqn:Hy; cbn; [done|].
      intros [= <-]. right. by apply (Hyear text).
    + intros [= <-]. left. by apply Hdesc.
  - unfold movie_info. split.
    + destruct (find item (lit "div") (Some (lit "hd"))) as [hd|]; cbn; [|done].
      destruct (find hd (lit "span") (Some (lit "title"))) as [title|] eqn:Htitle;
        cbn; [|done].
      destruct (desc_text item) as [text|y] eqn:Htext; cbn.
      * destruct (year_of_text text) as [year|y] eqn:Hy; cbn; [done|].
        intros [= ->]. exists hd, title, text.
        split; [done|]. split; [done|]. split; [done|]. by apply (Hyear text IndexError).
      * intros [= ->]. by specialize (Hdesc _ eq_refl).
    + intros (hd & title & text & -> & Htitle & -> & Hlen). cbn. rewrite Htitle. cbn.
      unfold year_of_text, index.
      destruct (splitlines (strip text) !! 1) eqn:Hline; [|done].
      apply lookup_lt_Some in Hline. lia.
  - intros x. unfold movie_poster.
    destruct (find item (lit "div") (Some (lit "pic"))) as [pic|]; cbn; [|by intros [= <-]].
    destruct (find pic (lit "img") None); cbn; [done | by intros [= <-]].
  - intros pic img Hpic Himg. unfold movie_poster. rewrite Hpic. cbn. by rewrite Himg.
Qed.

Lemma lookup_errors_witness :
  movie_info Sample.no_poster = Raise IndexError.
Proof.
  apply (lookup_errors Sample.no_poster).
  eexists _, _, _. repeat split; vm_compute; reflexivity.
Defined.

Lemma chinese_items_loop_acc (items acc : list node) :
  chinese_items_loop items acc
  = (out ← chinese_items_loop items []; Ok (acc ++ out)).
Proof.
  revert acc; induction items as [|item items IH]; intros acc.
  - cbn. by rewrite app_nil_r.
  - rewrite !chinese_items_loop_cons. destruct (desc_text item) as [text|x]; [|done].
    rewrite (IH (acc ++ _)), (IH ([] ++ _)).
    destruct (chinese_items_loop items []) as [out|]; cbn; [|done].
    by rewrite app_assoc.
Qed.

(** X19.  Filtering distributes over concatenation: the blocks kept from
    two lists in a row are the blocks kept from the first followed by the
    blocks kept from the second, and an accumulator only goes in front. *)
Theorem chinese_items_loop_app (items1 items2 acc : list node) :
  chinese_items_loop (items1 ++ items2) acc
  = (out1 ← chinese_items_loop items1 [];
     out2 ← chinese_items_loop items2 [];
     Ok (acc ++ out1 ++ out2)).
Proof.
  revert acc; induction items1 as [|item items1 IH]; intros acc.
  - cbn [app]. rewrite chinese_items_loop_acc. cbn.
    by destruct (chinese_items_loop items2 []).
  - cbn [app]. rewrite !chinese_items_loop_cons.
    destruct (desc_text item) as [text|x]; [|done].
    rewrite IH, (chinese_items_loop_acc items1 ([] ++ _)).
    destruct (chinese_items_loop items1 []) as [out1|]; cbn; [|done].
    destruct (chinese_items_loop items2 []) as [out2|]; cbn; [|done].
    by rewrite !app_assoc.
Qed.

(** ** The shape of an extracted year (lines 93-96) *)

Lemma lstrip_suffix (s : str) : exists k, s = k ++ lstrip s.
Proof.
  induction s as [|c s [k Hk]]; [by exists []|]. cbn.
  destruct (is_space c); [|by exists []]. exists (c :: k). cbn. by f_equal.
Qed.

Lemma lstrip_head (s : str) (c : N) : head (lstrip s) = Some c -> is_space c = false.
Proof.
  induction s as [|c' s IH]; [done|]. cbn.
  destruct (is_space c') eqn:Hc'; [done|]. cbn. by intros [= <-].
Qed.

Lemma rstrip_prefix (s : str) : exists k, s = rstrip s ++ k.
Proof.
  unfold rstrip. destruct (lstrip_suffix (rev s)) as [k Hk].
  exists (rev k). rewrite <- rev_app_distr, <- Hk. by rewrite rev_involutive.
Qed.

Lemma strip_head (s : str) (c : N) : head (strip s) = Some c -> is_space c = false.
Proof.
  unfold strip. destruct (rstrip_prefix (lstrip s)) as [k Hk]. intros Hhead.
  apply (lstrip_head s). rewrite Hk. by destruct (rstrip (lstrip s)).
Qed.

Lemma strip_Forall (P : N -> Prop) (s : str) : Forall P s -> Forall P (strip s).
Proof.
  intros Hs. unfold strip. destruct (rstrip_prefix (lstrip s)) as [k Hk].
  destruct (lstrip_suffix s) as [k' Hk']. rewrite Hk' in Hs.
  apply Forall_app in Hs as [_ Hs]. rewrite Hk in Hs. by apply Forall_app in Hs as [? _].
Qed.

Lemma splitlines_no_break (s : str) :
  Forall (Forall (fun c => is_linebreak c = false)) (splitlines s).
Proof.
  assert (Forall (Forall (fun c => is_linebreak c = false)) (splitlines s)
          /\ Forall (Forall (fun c => is_linebreak c = false)) (splitlines (tail s)))
    as [? _]; [|done].
  induction s as [|c s [IH1 IH2]]; [by split; constructor|].
  split; [|done]. cbn [splitlines].
  destruct (is_linebreak c) eqn:Hc.
  - constructor; [constructor|]. destruct s as [|c' rest]; [constructor|].
    by destruct ((c =? 13)%N && (c' =? 10)%N).
  - destruct (splitlines s) as [|l ls]; [by repeat constructor|].
    apply Forall_cons in IH1 as [Hl Hls]. constructor; [by constructor | done].
Qed.

Lemma splitlines_one_line (s : str) :
  Forall (fun c => is_linebreak c = false) s -> length (splitlines s) <= 1.
Proof.
  induction 1 as [|c s Hc _ IH]; [cbn; lia|]. cbn [splitlines]. rewrite Hc.
  destruct (splitlines s); cbn in *; lia.
Qed.

Lemma year_of_text_shape (text year : str) :
  year_of_text text = Ok year ->
  length year <= 4
  /\ (forall c, head year = Some c -> is_space c = false)
  /\ Forall (fun c => is_linebreak c = false) year.
Proof.
  unfold year_of_text, index.
  destruct (splitlines (strip text) !! 1) as [line|] eqn:Hline; cbn; [|done].
  intros [= <-]. split; [|split].
  - rewrite length_take. lia.
  - intros c Hc. apply (strip_head line). by destruct (strip line).
  - apply Forall_take, strip_Forall.
    pose proof (splitlines_no_break (strip text)) as Hall.
    rewrite Forall_forall in Hall. apply Hall. by eapply list_elem_of_lookup_2.
Qed.

(** X20.  Every year that [get_movie_infos] returns has at most four
    characters, does not start with white space and holds no line break;
    nothing makes it four digits.  A block whose trimmed paragraph text has
    no line break inside always makes [get_movie_infos] raise. *)
Theorem extracted_year_shape (items : list node) :
  (forall infos, get_movie_infos items = Ok infos ->
     Forall (fun info => length info.2 <= 4
                         /\ (forall c, head info.2 = Some c -> is_space c = false)
                         /\ Forall (fun c => is_linebreak c = false) info.2) infos)
  /\ (forall item text,
       item ∈ items -> desc_text item = Ok text ->
       Forall (fun c => is_linebreak c = false) (strip text) ->
       is_ok (get_movie_infos items) = false).
Proof.
  split.
  - intros infos Hinfos%get_movie_infos_ok.
    induction Hinfos as [|item [name year] items infos Hinfo _ IH]; constructor; [|done].
    apply movie_info_year in Hinfo as (text & _ & Hyear). cbn.
    by apply (year_of_text_shape text).
  - intros item text Hitem Htext Hline.
    destruct (get_movie_infos items) as [infos|] eqn:Hinfos; [|done].
    apply get_movie_infos_ok in Hinfos.
    apply list_elem_of_lookup in Hitem as [i Hi].
    destruct (Forall2_lookup_l _ _ _ _ _ Hinfos Hi) as ([name year] & _ & Hinfo).
    apply movie_info_year in Hinfo as (text' & Htext' & Hyear).
    assert (text' = text) as -> by congruence.
    unfold year_of_text, index in Hyear.
    destruct (splitlines (strip text) !! 1) eqn:H1; [|done].
    apply lookup_lt_Some in H1. pose proof (splitlines_one_line _ Hline). lia.
Qed.

Lemma extracted_year_shape_witness :
  Forall (fun info => length info.2 <= 4
                      /\ (forall c, head info.2 = Some c -> is_space c = false)
                      /\ Forall (fun c => is_linebreak c = false) info.2)
    [(lit "霸王别姬", lit "1993")]
  /\ is_ok (get_movie_infos [Sample.farewell; Sample.no_poster]) = false.
Proof.
  split.
  - apply (extracted_year_shape [Sample.farewell]). vm_compute; reflexivity.
  - apply (extracted_year_shape [Sample.farewell; Sample.no_poster])
      with (item := Sample.no_poster) (text := lit "中国").
    + right. left.
    + vm_compute; reflexivity.
    + vm_compute. repeat constructor.
Defined.

(** A year can come out shorter than four characters, even empty, without
    any exception: a blank second line gives the empty year. *)
Example blank_second_line_gives_empty_year :
  year_of_text (lit "credits" ++ [10; 32; 10]%N ++ lit "more") = Ok [].
Proof. vm_compute; reflexivity. Qed.
